(** * animesion: the training / validation orchestration of
      [classification/train.py] and the prompt construction of
      [classification/inference.py], embedded in Rocq.

    Conventions of the embedding.

    - Python integers are [Z].  A Python float (accuracy percentages,
      [loss.item()], epoch means) is held as the rational number it
      denotes, as a [Q]; the operations of the source that produce a float
      round to the nearest double ([round_double]).  Arithmetic performed
      by torch on tensors, and Python's arithmetic on hyper-parameters
      whose types the argument parser decides, are kept abstract: the
      development is parametric in these operations and assumes no law
      about them.  Infinities and NaN are not modelled.
    - Everything outside the two source files (the network, the optimizer,
      both schedulers, the data loaders, the tokenizer, the experiment
      tracker) is a collaborator: a [Variable] of the section [Engine].
      The opaque state of the numeric runtime (random generator, memory
      statistics) is threaded explicitly.  A collaborator of the training
      run is a function: a run in which one of them raises does not
      return, and the statements about runs that return say nothing of
      it.
    - Mutable Python objects are fields of an explicit [state]; the
      functions of the source are computations in a state-and-exception
      monad, exceptions being the Python errors the source can raise.
    - Calls to collaborators that are visible from outside (file log lines,
      tracker records, checkpoint writes, scheduler queries, optimizer
      steps) are recorded, in program order, in the field [trace]. *)

From Stdlib Require Import ZArith QArith Qround List String Ascii Bool Lia.
From Stdlib Require Import DecimalString.
Import ListNotations.

Set Implicit Arguments.

(** ** Python exceptions and the result of a computation *)

Inductive pyerror : Type :=
| NameError            (* a local read before any assignment bound it *)
| ValueError           (* tuple unpacking of the wrong arity, randint range *)
| RuntimeError         (* torch: shapes that do not broadcast, bad sizes *)
| IndexError           (* index out of range *)
| ZeroDivisionError
| StatisticsError.     (* statistics.mean of an empty sequence *)

Inductive result (A : Type) : Type :=
| Ok (a : A)
| Raise (e : pyerror).

Arguments Ok {A} a.
Arguments Raise {A} e.

Definition is_ok {A} (r : result A) : bool :=
  match r with Ok _ => true | Raise _ => false end.

(** ** Numbers *)

Local Open Scope Z_scope.

(** Python's [a % b] on integers: the sign of the result follows the
    divisor, as [Z.modulo] does; a zero divisor raises. *)
Definition py_mod (a b : Z) : result Z :=
  if b =? 0 then Raise ZeroDivisionError else Ok (a mod b).

(** [a > b] on Python floats, here on rationals. *)
Definition Qgtb (a b : Q) : bool := negb (Qle_bool a b).

(** Rounding of the ratio [n / d] ([d] positive) to the nearest integer,
    ties to even. *)
Definition round_ratio (n d : Z) : Z :=
  let fl := n / d in
  let r := n mod d in
  match (2 * r ?= d)%Z with
  | Lt => fl
  | Gt => fl + 1
  | Eq => if Z.even fl then fl else fl + 1
  end.

(** Python floats are IEEE 754 binary64 numbers: 53 significant bits,
    least exponent -1074.  [round_double q] is the double nearest to the
    rational [q], ties to even; a double is held as the rational it
    denotes, in lowest terms.  Values beyond the range of doubles
    (overflow to infinity) are not modelled. *)
Definition double_exponent (N D : Z) : Z := Z.max 0 (Z.log2 (N / D) - 52).

Definition double_mantissa (N D : Z) : Z :=
  round_ratio N (D * 2 ^ double_exponent N D).

Definition round_double_pos (n d : positive) : Q :=
  let N := Z.pos n * 2 ^ 1074 in
  let D := Z.pos d in
  Qred (Qmake (double_mantissa N D * 2 ^ double_exponent N D) (2 ^ 1074)).

Definition round_double (q : Q) : Q :=
  match Qnum q with
  | 0 => 0%Q
  | Z.pos n => round_double_pos n (Qden q)
  | Z.neg n => (- round_double_pos n (Qden q))%Q
  end.

(** [x / n] for a Python integer [x] and a Python integer [n]: true
    division, which raises on a zero divisor and otherwise gives the
    double nearest to the quotient. *)
Definition py_truediv (x : Q) (n : Z) : result Q :=
  if n =? 0 then Raise ZeroDivisionError
  else Ok (round_double (x / inject_Z n)).

Definition Qsum (l : list Q) : Q := fold_right Qplus 0%Q l.

(** [statistics.mean] on floats: the sum is taken exactly, divided
    exactly by the number of values, and the quotient converted to the
    nearest double; an empty sequence raises [StatisticsError]. *)
Definition mean (l : list Q) : result Q :=
  match l with
  | [] => Raise StatisticsError
  | _ => Ok (round_double (Qsum l / inject_Z (Z.of_nat (List.length l))))
  end.

(** ** Text formatting ([str.format]) *)

Local Open Scope string_scope.

Definition str_of_Z (z : Z) : string := NilZero.string_of_int (Z.to_int z).

Fixpoint zeros (n : nat) : string :=
  match n with O => "" | S n' => "0" ++ zeros n' end.

Definition pad_left (width : nat) (s : string) : string :=
  zeros (width - String.length s) ++ s.

(** Rounding of a rational to the nearest integer, ties to even. *)
Definition round_half_even (q : Q) : Z :=
  let n := Qnum q in
  let d := Z.pos (Qden q) in
  let fl := n / d in
  let r := n mod d in
  match (2 * r ?= d)%Z with
  | Lt => fl
  | Gt => fl + 1
  | Eq => if Z.even fl then fl else fl + 1
  end.

(** The format specifier [{:.df}]: fixed point with [d] decimals. *)
Definition format_f (d : nat) (q : Q) : string :=
  let scale := 10 ^ Z.of_nat d in
  let k := Z.abs (round_half_even (q * inject_Z scale)%Q) in
  let sign := if Qle_bool 0 q then "" else "-" in
  sign ++ str_of_Z (k / scale) ++
    match d with
    | O => ""
    | _ => "." ++ pad_left d (str_of_Z (k mod scale))
    end.

(** ** Tensors of integers

    Token ids, text targets and masks are two-dimensional integer tensors,
    held as the list of their rows. *)

Local Open Scope list_scope.

Definition tensor2 := list (list Z).

(** [sequence] turns a list of results into the result of a list: the
    first error, in order, wins. *)
Fixpoint sequence {A} (l : list (result A)) : result (list A) :=
  match l with
  | [] => Ok []
  | r :: l' =>
      match r with
      | Raise e => Raise e
      | Ok x => match sequence l' with
                | Raise e => Raise e
                | Ok xs => Ok (x :: xs)
                end
      end
  end.

(** Broadcasting of one dimension: equal sizes pair up position by
    position, a dimension of size one is repeated along the other, any
    other pair of sizes is refused by torch. *)
Definition broadcast_with {A B C} (f : A -> B -> result C)
    (xs : list A) (ys : list B) : result (list C) :=
  if Nat.eqb (List.length xs) (List.length ys)
  then sequence (map (fun p => f (fst p) (snd p)) (combine xs ys))
  else match xs, ys with
       | [x], _ => sequence (map (f x) ys)
       | _, [y] => sequence (map (fun x => f x y) xs)
       | _, _ => Raise RuntimeError
       end.

(** [torch.where(cond, x, other)] for a two-dimensional condition, a
    Python scalar [x] and a two-dimensional tensor [other]. *)
Definition torch_where (cond : list (list bool)) (x : Z) (other : tensor2)
    : result tensor2 :=
  broadcast_with
    (broadcast_with (fun (c : bool) (o : Z) => Ok (if c then x else o)))
    cond other.

(** The Python slice [row[-m:]]: a negative start counts from the end and
    is clamped at the beginning; [-0] is the start [0], that is the whole
    row; a positive start (negative [m]) drops that many leading
    positions. *)
Definition slice_last {A} (m : Z) (row : list A) : list A :=
  let len := Z.of_nat (List.length row) in
  let start := if (- m <? 0)%Z then Z.max (len - m) 0 else Z.min (- m) len in
  skipn (Z.to_nat start) row.

(** The three token ids the source excludes from text supervision:
    0 is [PAD], 101 is [CLS], 102 is [SEP]. *)
Definition is_special_token (c : Z) : bool :=
  ((c =? 0) || (c =? 101) || (c =? 102))%Z.

(** train.py lines 99 and 102 (the same as validate, lines 190 and 193):
    [labels_text = torch.where((captions==0)|(captions==101)|(captions==102),
                               -100, captions)]
    [labels_text = torch.where(masks[:, -args.max_text_seq_len:]==1,
                               -100, labels_text)].
    The condition of the first [where] is computed from [captions] itself,
    so its shape is that of [captions]. *)
Definition text_targets (max_text_seq_len : Z) (captions masks : tensor2)
    : result tensor2 :=
  let labels_text :=
    map (map (fun c => if is_special_token c then (-100)%Z else c)) captions in
  torch_where
    (map (fun row => map (fun v => (v =? 1)%Z) (slice_last max_text_seq_len row))
         masks)
    (-100)%Z labels_text.

(** ** Top-k correctness counts *)

Definition logits := list (list Q).

Fixpoint indexed {A} (i : nat) (l : list A) : list (nat * A) :=
  match l with
  | [] => []
  | x :: l' => (i, x) :: indexed (S i) l'
  end.

Fixpoint insert_desc (x : nat * Q) (l : list (nat * Q)) : list (nat * Q) :=
  match l with
  | [] => [x]
  | y :: l' =>
      if Qle_bool (snd y) (snd x) then x :: l else y :: insert_desc x l'
  end.

(** The class indices of one example ordered by decreasing score (equal
    scores keep the order of their indices). *)
Definition ranking (scores : list Q) : list nat :=
  map fst (fold_right insert_desc [] (indexed 0 scores)).

Definition in_topk (k : nat) (scores : list Q) (label : Z) : bool :=
  existsb (fun c => (Z.of_nat c =? label)%Z) (firstn k (ranking scores)).

Definition count_topk (k : nat) (outputs : logits) (labels : list Z) : Z :=
  Z.of_nat
    (List.length
       (filter (fun p => in_topk k (fst p) (snd p)) (combine outputs labels))).

(** Modelled from the spec: [utilities.misc.accuracy] is not among the
    source files.  The specification describes it as standard top-k
    accuracy: "a prediction counts as correct for top-k if the true label
    appears among the k highest model scores"; the call
    [accuracy(outputs.data, labels, (1, 5))] yields the number of examples
    of the batch that are correct for k = 1 and for k = 5. *)
Definition accuracy (outputs : logits) (labels : list Z) : Z * Z :=
  (count_topk 1 outputs labels, count_topk 5 outputs labels).

(** ** Run configuration

    The fields of [args] the two source files read.  [mask_schedule] is
    only ever tested for truth, so it is held as a boolean. *)

Record args : Type := mkArgs {
  multimodal : bool;
  mask_schedule : bool;
  exclusion_loss : bool;
  exclusion_weight : Q;
  temperature : Q;
  max_text_seq_len : Z;
  log_freq : Z;
  debugging : bool;
  no_epochs : Z;
  epoch_decay : Z;
  run_name : string;
  results_dir : string;
  inference_mode : string;
  masking_behavior : string
}.

Definition with_debugging (d : bool) (a : args) : args :=
  mkArgs (multimodal a) (mask_schedule a) (exclusion_loss a)
    (exclusion_weight a) (temperature a) (max_text_seq_len a) (log_freq a)
    d (no_epochs a) (epoch_decay a) (run_name a) (results_dir a)
    (inference_mode a) (masking_behavior a).

(** The list objects the run appends to.  [train_main] owns four of them;
    the fifth is the list that the default value of the parameter
    [val_loss_avg] of [validate] denotes: one object, created when the
    function is defined and shared by every call that omits the argument. *)
Inductive list_ref : Type :=
| TrainLossAvg
| ValLossAvg
| Top1Accuracies
| Top5Accuracies
| ValidateDefault.

Record lists : Type := mkLists {
  train_loss_avg : list Q;
  val_loss_avg : list Q;
  top1_accuracies : list Q;
  top5_accuracies : list Q;
  validate_default : list Q
}.

Definition deref (r : list_ref) (h : lists) : list Q :=
  match r with
  | TrainLossAvg => train_loss_avg h
  | ValLossAvg => val_loss_avg h
  | Top1Accuracies => top1_accuracies h
  | Top5Accuracies => top5_accuracies h
  | ValidateDefault => validate_default h
  end.

Definition assign (r : list_ref) (l : list Q) (h : lists) : lists :=
  match r with
  | TrainLossAvg =>
      mkLists l (val_loss_avg h) (top1_accuracies h) (top5_accuracies h)
        (validate_default h)
  | ValLossAvg =>
      mkLists (train_loss_avg h) l (top1_accuracies h) (top5_accuracies h)
        (validate_default h)
  | Top1Accuracies =>
      mkLists (train_loss_avg h) (val_loss_avg h) l (top5_accuracies h)
        (validate_default h)
  | Top5Accuracies =>
      mkLists (train_loss_avg h) (val_loss_avg h) (top1_accuracies h) l
        (validate_default h)
  | ValidateDefault =>
      mkLists (train_loss_avg h) (val_loss_avg h) (top1_accuracies h)
        (top5_accuracies h) l
  end.

Definition list_ref_eqb (r1 r2 : list_ref) : bool :=
  match r1, r2 with
  | TrainLossAvg, TrainLossAvg | ValLossAvg, ValLossAvg
  | Top1Accuracies, Top1Accuracies | Top5Accuracies, Top5Accuracies
  | ValidateDefault, ValidateDefault => true
  | _, _ => false
  end.

(** [range(n)] *)
Definition py_range (n : Z) : list Z := map Z.of_nat (seq 0 (Z.to_nat n)).

(** ** First facts about the definitions above *)

Lemma Qgtb_lt (a b : Q) : Qgtb a b = true <-> (b < a)%Q.
Proof.
  unfold Qgtb. rewrite negb_true_iff.
  split; intro H.
  - apply Qnot_le_lt. intro Hle. apply Qle_bool_iff in Hle. congruence.
  - destruct (Qle_bool a b) eqn:E; [|reflexivity].
    apply Qle_bool_iff in E. exfalso. exact (Qlt_not_le _ _ H E).
Qed.

Lemma Qgtb_le (a b : Q) : Qgtb a b = false <-> (a <= b)%Q.
Proof.
  unfold Qgtb. rewrite negb_false_iff. apply Qle_bool_iff.
Qed.

(** *** Rounding to the nearest double *)

Lemma round_ratio_spec (n d : Z) :
  0 < d ->
  let z := round_ratio n d in
  (2 * z - 1) * d <= 2 * n <= (2 * z + 1) * d /\
  (2 * n = (2 * z - 1) * d -> Z.even z = true) /\
  (2 * n = (2 * z + 1) * d -> Z.even z = true).
Proof.
  intro Hd. unfold round_ratio. cbv zeta.
  pose proof (Z.div_mod n d ltac:(lia)) as Hdm.
  pose proof (Z.mod_pos_bound n d Hd) as Hb.
  set (fl := n / d) in *. set (r := n mod d) in *.
  destruct (Z.compare_spec (2 * r) d) as [E|E|E].
  - destruct (Z.even fl) eqn:Hev.
    + split; [nia|]. split; intro H; [exfalso; nia|exact Hev].
    + split; [nia|]. split; intro H; [|exfalso; nia].
      rewrite Z.even_add, Hev. reflexivity.
  - split; [nia|]. split; intro H; exfalso; nia.
  - split; [nia|]. split; intro H; exfalso; nia.
Qed.

Lemma round_ratio_mono (n1 d1 n2 d2 : Z) :
  0 < d1 -> 0 < d2 -> n1 * d2 <= n2 * d1 ->
  round_ratio n1 d1 <= round_ratio n2 d2.
Proof.
  intros H1 H2 Hle.
  pose proof (round_ratio_spec n1 H1) as (A1 & A2 & A3).
  pose proof (round_ratio_spec n2 H2) as (B1 & B2 & B3).
  cbv zeta in *.
  set (z1 := round_ratio n1 d1) in *. set (z2 := round_ratio n2 d2) in *.
  destruct (Z_le_gt_dec z1 z2) as [Hz|Hz]; [exact Hz|exfalso].
  assert (E1 : (2 * z1 - 1) * d1 * d2 <= 2 * n1 * d2) by nia.
  assert (E2 : 2 * n2 * d1 <= (2 * z2 + 1) * d2 * d1) by nia.
  assert (E3 : (2 * z1 - 1) * (d1 * d2) <= (2 * z2 + 1) * (d1 * d2)) by nia.
  assert (Hz1 : z1 = z2 + 1) by nia.
  assert (F1 : 2 * n1 = (2 * z1 - 1) * d1) by nia.
  assert (F2 : 2 * n2 = (2 * z2 + 1) * d2) by nia.
  specialize (A2 F1). specialize (B3 F2).
  rewrite Hz1, Z.even_add, B3 in A2. discriminate A2.
Qed.

Lemma round_ratio_exact (k d : Z) : 0 < d -> round_ratio (k * d) d = k.
Proof.
  intro Hd. pose proof (round_ratio_spec (k * d) Hd) as (A1 & _).
  cbv zeta in A1. nia.
Qed.

Lemma floor_mono (n1 d1 n2 d2 : Z) :
  0 < d1 -> 0 < d2 -> n1 * d2 <= n2 * d1 -> n1 / d1 <= n2 / d2.
Proof.
  intros H1 H2 Hle. apply Z.div_le_lower_bound; [exact H2|].
  pose proof (Z.mul_div_le n1 d1 H1). nia.
Qed.

Lemma log2_upper (x : Z) : 0 <= x -> x < 2 ^ (Z.log2 x + 1).
Proof.
  intro Hx. destruct (Z.eq_dec x 0) as [->|Hn]; [reflexivity|].
  pose proof (Z.log2_spec x ltac:(lia)) as [_ H].
  unfold Z.succ in H. exact H.
Qed.

Lemma double_scaled_mono (N1 D1 N2 D2 : Z) :
  0 < D1 -> 0 < D2 -> 0 <= N1 -> N1 * D2 <= N2 * D1 ->
  double_mantissa N1 D1 * 2 ^ double_exponent N1 D1 <=
  double_mantissa N2 D2 * 2 ^ double_exponent N2 D2.
Proof.
  intros H1 H2 H0 Hle. unfold double_mantissa.
  pose proof (floor_mono _ _ H1 H2 Hle) as Hf.
  assert (Hf0 : 0 <= N1 / D1) by (apply Z.div_pos; lia).
  pose proof (Z.log2_le_mono _ _ Hf) as Hl.
  assert (He : double_exponent N1 D1 <= double_exponent N2 D2)
    by (unfold double_exponent; lia).
  assert (He1 : 0 <= double_exponent N1 D1) by (unfold double_exponent; lia).
  set (e1 := double_exponent N1 D1) in *.
  set (e2 := double_exponent N2 D2) in *.
  assert (P1 : 0 < 2 ^ e1) by (apply Z.pow_pos_nonneg; lia).
  assert (P2 : 0 < 2 ^ e2) by (apply Z.pow_pos_nonneg; lia).
  destruct (Z.eq_dec e1 e2) as [E|E].
  - rewrite <- E. apply Z.mul_le_mono_nonneg_r; [lia|].
    apply round_ratio_mono; [apply Z.mul_pos_pos; lia..|].
    replace (N1 * (D2 * 2 ^ e1)) with (N1 * D2 * 2 ^ e1) by ring.
    replace (N2 * (D1 * 2 ^ e1)) with (N2 * D1 * 2 ^ e1) by ring.
    apply Z.mul_le_mono_nonneg_r; lia.
  - assert (Hlt : e1 + 1 <= e2) by lia.
    (* the larger number is at least 2^(e2+52) *)
    assert (He2 : e2 = Z.log2 (N2 / D2) - 52)
      by (unfold e2, double_exponent in *; lia).
    assert (Hf2 : 0 < N2 / D2).
    { destruct (Z_lt_le_dec 0 (N2 / D2)) as [?|Hn]; [assumption|].
      rewrite (Z.log2_nonpos _ Hn) in He2. lia. }
    pose proof (Z.log2_spec _ Hf2) as [Hlo _].
    replace (Z.log2 (N2 / D2)) with (e2 + 52) in Hlo by lia.
    rewrite Z.pow_add_r in Hlo by lia.
    pose proof (Z.mul_div_le N2 D2 H2) as Hd2.
    assert (X2 : 0 < D2 * 2 ^ e2) by (apply Z.mul_pos_pos; lia).
    assert (Y2 : 2 ^ 52 * (D2 * 2 ^ e2) <= N2).
    { eapply Z.le_trans; [|exact Hd2].
      replace (2 ^ 52 * (D2 * 2 ^ e2)) with (D2 * (2 ^ e2 * 2 ^ 52)) by ring.
      apply Z.mul_le_mono_nonneg_l; lia. }
    assert (M2 : 2 ^ 52 <= round_ratio N2 (D2 * 2 ^ e2)).
    { rewrite <- (round_ratio_exact (2 ^ 52) X2) at 1.
      apply round_ratio_mono; [exact X2..|].
      apply Z.mul_le_mono_nonneg_r; lia. }
    (* the smaller one is at most 2^(e1+53) *)
    pose proof (log2_upper Hf0) as Hup.
    assert (Hup' : N1 / D1 < 2 ^ (e1 + 53)).
    { eapply Z.lt_le_trans; [exact Hup|].
      apply Z.pow_le_mono_r; [lia|].
      unfold e1, double_exponent. lia. }
    rewrite Z.pow_add_r in Hup' by lia.
    pose proof (Z.div_mod N1 D1 ltac:(lia)) as Hdm.
    pose proof (Z.mod_pos_bound N1 D1 H1) as Hb.
    assert (X1 : 0 < D1 * 2 ^ e1) by (apply Z.mul_pos_pos; lia).
    assert (Y1 : N1 <= 2 ^ 53 * (D1 * 2 ^ e1)).
    { replace (2 ^ 53 * (D1 * 2 ^ e1)) with (D1 * (2 ^ e1 * 2 ^ 53)) by ring.
      assert (N1 / D1 + 1 <= 2 ^ e1 * 2 ^ 53) by lia.
      assert (D1 * (N1 / D1 + 1) <= D1 * (2 ^ e1 * 2 ^ 53))
        by (apply Z.mul_le_mono_nonneg_l; lia).
      lia. }
    assert (M1 : round_ratio N1 (D1 * 2 ^ e1) <= 2 ^ 53).
    { rewrite <- (round_ratio_exact (2 ^ 53) X1) at 1.
      apply round_ratio_mono; [exact X1..|].
      apply Z.mul_le_mono_nonneg_r; lia. }
    assert (P12 : 2 ^ e1 * 2 <= 2 ^ e2).
    { replace (2 ^ e1 * 2) with (2 ^ (e1 + 1))
        by (rewrite Z.pow_add_r by lia; reflexivity).
      apply Z.pow_le_mono_r; lia. }
    clear Y1 Y2 Hup Hup' Hlo.
    change (2 ^ 53) with (2 ^ 52 * 2) in M1.
    set (p52 := 2 ^ 52) in *. assert (0 < p52) by reflexivity.
    set (m1 := round_ratio N1 (D1 * 2 ^ e1)) in *.
    set (m2 := round_ratio N2 (D2 * 2 ^ e2)) in *.
    apply Z.le_trans with (p52 * 2 * 2 ^ e1);
      [apply Z.mul_le_mono_nonneg_r; lia|].
    apply Z.le_trans with (p52 * 2 ^ e2).
    + replace (p52 * 2 * 2 ^ e1) with (p52 * (2 ^ e1 * 2)) by ring.
      apply Z.mul_le_mono_nonneg_l; lia.
    + apply Z.mul_le_mono_nonneg_r; lia.
Qed.

Lemma round_double_pos_nonneg (n d : positive) : (0 <= round_double_pos n d)%Q.
Proof.
  unfold round_double_pos. cbv zeta. rewrite Qred_correct.
  unfold Qle. cbn [Qnum Qden]. rewrite Z.mul_1_r, Z.mul_0_l.
  apply Z.mul_nonneg_nonneg.
  - unfold double_mantissa.
    set (D := Z.pos d * 2 ^ double_exponent (Z.pos n * 2 ^ 1074) (Z.pos d)).
    assert (HD : 0 < D).
    { unfold D. apply Z.mul_pos_pos; [lia|].
      apply Z.pow_pos_nonneg; [lia|]. unfold double_exponent. lia. }
    rewrite <- (round_ratio_exact 0 HD). apply round_ratio_mono; nia.
  - apply Z.pow_nonneg. lia.
Qed.

(** Rounding to the nearest double is monotone (here: on the
    non-negative numbers). *)
Lemma round_double_mono (x y : Q) :
  (0 <= x)%Q -> (x <= y)%Q -> (round_double x <= round_double y)%Q.
Proof.
  destruct x as [nx dx], y as [ny dy]. intros H0 Hxy.
  unfold Qle in H0, Hxy. cbn [Qnum Qden] in H0, Hxy.
  assert (Hnx : 0 <= nx) by lia.
  assert (Hny : 0 <= ny) by nia.
  unfold round_double. cbn [Qnum Qden].
  destruct nx as [|nx|nx]; [| |lia]; (destruct ny as [|ny|ny]; [| |lia]).
  - apply Qle_refl.
  - apply round_double_pos_nonneg.
  - exfalso. nia.
  - unfold round_double_pos. cbv zeta. rewrite !Qred_correct.
    unfold Qle. cbn [Qnum Qden].
    apply Z.mul_le_mono_nonneg_r; [lia|].
    apply double_scaled_mono; lia.
Qed.


Example format_f_80 : format_f 4 (80 # 1) = "80.0000".
Proof. reflexivity. Qed.

Example format_f_third : format_f 4 (200 # 3) = "66.6667".
Proof. reflexivity. Qed.

Example format_f_small : format_f 8 (1 # 1000) = "0.00100000".
Proof. reflexivity. Qed.

Example text_targets_ex :
  text_targets 4
    [[101; 7; 8; 102]; [101; 9; 102; 0]]
    [[0; 0; 0; 1; 0]; [1; 0; 1; 0; 0]]
  = Ok [[-100; 7; -100; -100]; [-100; -100; -100; -100]]%Z.
Proof. reflexivity. Qed.

Example text_targets_shape_error :
  text_targets 4 [[101; 7; 8; 102]] [[0; 0; 1]] = Raise RuntimeError.
Proof. reflexivity. Qed.

Example accuracy_ex :
  accuracy [[1#2; 3#1; 2#1]; [5#1; 1#1; 4#1]; [0#1; 1#1; 2#1]] [1; 2; 2]%Z
  = (2, 3)%Z.
Proof. reflexivity. Qed.

Lemma deref_assign (r r' : list_ref) (l : list Q) (h : lists) :
  deref r (assign r' l h) = if list_ref_eqb r r' then l else deref r h.
Proof. destruct r, r'; reflexivity. Qed.
Section Engine.

(** *** Collaborators *)

Variables Model Optimizer LrScheduler Torch Images TextLogits Scalar : Type.

(** A batch is the tuple the data loader yields: [(images, labels)] or
    [(images, labels, captions)].  Captions are held in the form
    [captions.squeeze(dim=1)] gives them, batch by sequence. *)
Inductive batch : Type :=
| Batch2 (images : Images) (labels : list Z)
| Batch3 (images : Images) (labels : list Z) (captions : tensor2).

(** [mask_scheduler.ret_mask(global_step)]: [None] or a mask, batch by
    total sequence length; the selection of positions is random. *)
Variable ret_mask : Torch -> Z -> option tensor2 * Torch.

(** What a call of the network computes.  Which of the three components a
    call returns depends on how the network was configured; the source
    unpacks the components its own flags announce (section 6 of the
    specification: the arity of the output matches the enabled flags). *)
Record model_out : Type := mkOut {
  out_logits : logits;
  out_text : TextLogits;
  out_exclusion : Scalar
}.

(** [model(images)] and [model(images, text=captions, mask=masks)], in
    training or evaluation mode. *)
Variable model_call :
  bool -> Model -> Torch -> Images -> option (tensor2 * option tensor2) ->
  model_out * Torch.

(** [torch.nn.CrossEntropyLoss()] on class logits and on the transposed
    text logits. *)
Variable criterion : logits -> list Z -> Scalar.
Variable criterion_text : TextLogits -> tensor2 -> Scalar.

(** Arithmetic on scalar tensors, and [.item()]. *)
Variable sadd ssub : Scalar -> Scalar -> Scalar.
Variable smul : Q -> Scalar -> Scalar.
Variable item : Scalar -> Q.

(** Python's [*] and [**] on the hyper-parameters [exclusion_weight]
    and [temperature], whose types (and so the rounding of the two
    operations) are decided by the argument parser, which is not among
    the sources. *)
Variable py_mul : Q -> Q -> Q.
Variable py_pow : Q -> Z -> Q.

(** [loss.backward(); optimizer.step()] (followed, after the scheduler
    step, by [optimizer.zero_grad()], which leaves nothing to observe). *)
Variable backward_step : Model -> Optimizer -> Scalar -> Model * Optimizer.

(** [lr_scheduler.step()], [optimizer.param_groups[0]['lr']],
    [utilities.misc.update_lr(optimizer)]. *)
Variable lr_scheduler_step : LrScheduler -> Optimizer -> LrScheduler * Optimizer.
Variable current_lr : Optimizer -> Q.
Variable update_lr : Optimizer -> Optimizer.

(** [torch.cuda.max_memory_reserved()] *)
Variable max_memory_reserved : Torch -> Q.

(** *** Observable calls *)

Inductive event : Type :=
| EvRetMask (step : Z)             (* mask_scheduler.ret_mask, with the counter it is given *)
| EvModelCall (training : bool)    (* model(...) *)
| EvOptimizerStep                  (* loss.backward(); optimizer.step() *)
| EvLrSchedulerStep (step : Z)     (* lr_scheduler.step(), with the counter at the time of the call *)
| EvUpdateLr                       (* utilities.misc.update_lr(optimizer) *)
| EvPrintWrite (line : string)     (* utilities.misc.print_write(f, line) *)
| EvWandbLog (record : list (string * Q))
| EvDecodeText                     (* utilities.misc.decode_text(...) *)
| EvTorchSave (path : string) (m : Model)
| EvSummary (top_acc : Q) (best_epoch : Z) (max_memory : Q).

(** *** State *)

Record state : Type := mkState {
  global_step : Z;                   (* global_step[0] *)
  model : Model;                     (* the parameters *)
  training : bool;                   (* model.train() / model.eval() *)
  optimizer : Optimizer;
  lr_scheduler : option LrScheduler; (* None: no scheduler configured *)
  torch : Torch;
  heap : lists;
  checkpoint : option Model;         (* the file <results_dir>/<run_name>.ckpt *)
  trace : list event
}.

Definition set_global_step (v : Z) (s : state) : state :=
  mkState v (model s) (training s) (optimizer s) (lr_scheduler s) (torch s)
    (heap s) (checkpoint s) (trace s).
Definition set_model (v : Model) (s : state) : state :=
  mkState (global_step s) v (training s) (optimizer s) (lr_scheduler s)
    (torch s) (heap s) (checkpoint s) (trace s).
Definition set_training (v : bool) (s : state) : state :=
  mkState (global_step s) (model s) v (optimizer s) (lr_scheduler s)
    (torch s) (heap s) (checkpoint s) (trace s).
Definition set_optimizer (v : Optimizer) (s : state) : state :=
  mkState (global_step s) (model s) (training s) v (lr_scheduler s)
    (torch s) (heap s) (checkpoint s) (trace s).
Definition set_lr_scheduler (v : option LrScheduler) (s : state) : state :=
  mkState (global_step s) (model s) (training s) (optimizer s) v
    (torch s) (heap s) (checkpoint s) (trace s).
Definition set_torch (v : Torch) (s : state) : state :=
  mkState (global_step s) (model s) (training s) (optimizer s)
    (lr_scheduler s) v (heap s) (checkpoint s) (trace s).
Definition set_heap (v : lists) (s : state) : state :=
  mkState (global_step s) (model s) (training s) (optimizer s)
    (lr_scheduler s) (torch s) v (checkpoint s) (trace s).
Definition set_checkpoint (v : option Model) (s : state) : state :=
  mkState (global_step s) (model s) (training s) (optimizer s)
    (lr_scheduler s) (torch s) (heap s) v (trace s).
Definition set_trace (v : list event) (s : state) : state :=
  mkState (global_step s) (model s) (training s) (optimizer s)
    (lr_scheduler s) (torch s) (heap s) (checkpoint s) v.

(** *** The monad of the source's statements *)

Definition M (A : Type) : Type := state -> result (A * state).

Definition ret {A} (a : A) : M A := fun s => Ok (a, s).

Definition bind {A B} (c : M A) (k : A -> M B) : M B :=
  fun s => match c s with
           | Ok (a, s') => k a s'
           | Raise e => Raise e
           end.

Definition lift {A} (r : result A) : M A :=
  fun s => match r with Ok a => Ok (a, s) | Raise e => Raise e end.

Definition gets {A} (f : state -> A) : M A := fun s => Ok (f s, s).

Definition modify (f : state -> state) : M unit := fun s => Ok (tt, f s).

Definition emit (e : event) : M unit :=
  modify (fun s => set_trace (trace s ++ [e]) s).

Definition when (b : bool) (c : M unit) : M unit := if b then c else ret tt.

Local Notation "x <- c ;; k" := (bind c (fun x => k))
  (at level 61, c at next level, right associativity).
Local Notation "' p <- c ;; k" := (bind c (fun x => let 'p := x in k))
  (at level 61, p pattern, c at next level, right associativity).
Local Notation "c ;; k" := (bind c (fun _ => k))
  (at level 61, right associativity).

(** [l.append(x)] on the list object [r] *)
Definition append_to (r : list_ref) (x : Q) : M unit :=
  modify (fun s => set_heap (assign r (deref r (heap s) ++ [x]) (heap s)) s).

Definition print_write (line : string) : M unit := emit (EvPrintWrite line).

(** *** One batch: unpacking, masks, forward pass, loss

    Lines 87-122 of [train_one_epoch] and lines 179-213 of [validate] are
    the same statements; they are embedded once.  A local name that a
    branch may leave unbound is an [option]: reading it when unbound
    raises [NameError]. *)

(** Lines 87-93: [images, labels, captions = batch] or
    [images, labels = batch]. *)
Definition unpack_batch (a : args) (b : batch)
    : result (Images * list Z * option tensor2) :=
  if multimodal a then
    match b with
    | Batch3 im lb cap => Ok (im, lb, Some cap)
    | Batch2 _ _ => Raise ValueError
    end
  else
    match b with
    | Batch2 im lb => Ok (im, lb, None)
    | Batch3 _ _ _ => Raise ValueError
    end.

(** Line 96: [masks = mask_scheduler.ret_mask(global_step)] *)
Definition query_masks : M (option tensor2) :=
  g <- gets global_step ;;
  t <- gets torch ;;
  let (mk, t') := ret_mask t g in
  modify (set_torch t') ;;
  emit (EvRetMask g) ;;
  ret mk.

(** Lines 97-102 *)
Definition build_text_targets (a : args) (captions masks : option tensor2)
    : result (option tensor2) :=
  match masks with
  | None => Ok None
  | Some mk =>
      match captions with
      | None => Raise NameError
      | Some cap =>
          match text_targets (max_text_seq_len a) cap mk with
          | Ok t => Ok (Some t)
          | Raise e => Raise e
          end
      end
  end.

Definition call_model (images : Images)
    (text : option (tensor2 * option tensor2)) : M model_out :=
  m <- gets model ;;
  tr <- gets training ;;
  t <- gets torch ;;
  let (o, t') := model_call tr m t images text in
  modify (set_torch t') ;;
  emit (EvModelCall tr) ;;
  ret o.

(** Lines 105-116: the six-way forward pass.  The result is the triple of
    the locals [outputs], [outputs_text], [exclusion_loss]. *)
Definition forward (a : args) (images : Images)
    (captions masks : option tensor2)
    : M (logits * option TextLogits * option Scalar) :=
  let call_text :=
    match captions with
    | Some c => call_model images (Some (c, masks))
    | None => lift (Raise NameError)
    end in
  if multimodal a && mask_schedule a && exclusion_loss a then
    o <- call_text ;;
    ret (out_logits o, Some (out_text o), Some (out_exclusion o))
  else if multimodal a && mask_schedule a then
    o <- call_text ;;
    ret (out_logits o, Some (out_text o), None)
  else if multimodal a && exclusion_loss a then
    o <- call_text ;;
    ret (out_logits o, None, Some (out_exclusion o))
  else if multimodal a then
    o <- call_text ;;
    ret (out_logits o, None, None)
  else if exclusion_loss a then
    o <- call_model images None ;;
    ret (out_logits o, None, Some (out_exclusion o))
  else
    o <- call_model images None ;;
    ret (out_logits o, None, None).

(** Lines 118-122:
    [loss = criterion(outputs, labels)]
    [if masks is not None: loss = loss + criterion(outputs_text.transpose(1, 2), labels_text)]
    [if args.exclusion_loss: loss = loss - (args.exclusion_weight * (args.temperature ** 2) * exclusion_loss)] *)
Definition compose_loss (a : args) (outputs : logits) (labels : list Z)
    (masks : option tensor2) (outputs_text : option TextLogits)
    (labels_text : option tensor2) (exclusion : option Scalar)
    : result Scalar :=
  let loss := criterion outputs labels in
  let with_text :=
    match masks with
    | None => Ok loss
    | Some _ =>
        match outputs_text, labels_text with
        | Some ot, Some lt => Ok (sadd loss (criterion_text ot lt))
        | _, _ => Raise NameError
        end
    end in
  match with_text with
  | Raise e => Raise e
  | Ok loss =>
      if exclusion_loss a then
        match exclusion with
        | Some e =>
            Ok (ssub loss
                  (smul (py_mul (exclusion_weight a) (py_pow (temperature a) 2))
                     e))
        | None => Raise NameError
        end
      else Ok loss
  end.

(** The locals of one iteration that later statements read. *)
Record batch_locals : Type := mkLocals {
  l_labels : list Z;
  l_masks : option tensor2;
  l_labels_text : option tensor2;
  l_outputs : logits;
  l_loss : Scalar
}.

Definition batch_forward_loss (a : args) (b : batch) : M batch_locals :=
  '(images, labels, captions) <- lift (unpack_batch a b) ;;
  masks <- query_masks ;;
  labels_text <- lift (build_text_targets a captions masks) ;;
  '(outputs, outputs_text, exclusion) <- forward a images captions masks ;;
  loss <- lift (compose_loss a outputs labels masks outputs_text labels_text
                  exclusion) ;;
  ret (mkLocals labels masks labels_text outputs loss).

(** *** [train_one_epoch] *)

Local Open Scope string_scope.
Local Open Scope Z_scope.

Definition newline : string := String (ascii_of_nat 10) EmptyString.

Definition is_some {A} (o : option A) : bool :=
  match o with Some _ => true | None => false end.

(** Lines 125-129 *)
Definition backward_and_optimize (loss : Scalar) : M unit :=
  m <- gets model ;;
  o <- gets optimizer ;;
  let (m', o') := backward_step m o loss in
  modify (set_model m') ;;
  modify (set_optimizer o') ;;
  emit EvOptimizerStep ;;
  sch <- gets lr_scheduler ;;
  match sch with
  | Some sc =>
      g <- gets global_step ;;
      o <- gets optimizer ;;
      let (sc', o'') := lr_scheduler_step sc o in
      modify (set_lr_scheduler (Some sc')) ;;
      modify (set_optimizer o'') ;;
      emit (EvLrSchedulerStep g)
  | None => ret tt
  end.

(** Lines 137-146 *)
Definition log_train_step (a : args) (epoch steps_per_epoch i : Z)
    (loc : batch_locals) : M unit :=
  r <- lift (py_mod i (log_freq a)) ;;
  when (r =? 0)
    (o <- gets optimizer ;;
     let curr_lr := current_lr o in
     print_write
       ("Epoch [" ++ str_of_Z (epoch + 1) ++ "/" ++ str_of_Z (no_epochs a)
        ++ "], Step [" ++ str_of_Z (i + 1) ++ "/" ++ str_of_Z steps_per_epoch
        ++ "] Loss: " ++ format_f 8 (item (l_loss loc))
        ++ ", LR: " ++ format_f 8 curr_lr ++ newline) ;;
     emit (EvWandbLog [("Training loss (step)", item (l_loss loc));
                       ("Learning rate (current)", curr_lr)]) ;;
     when (is_some (l_masks loc)) (emit EvDecodeText)).

(** Lines 148-149 and 231-232: the test that guards [break]. *)
Definition debug_break (a : args) (i : Z) : M bool :=
  if debugging a then
    r <- lift (py_mod (i + 1) (log_freq a * 3)) ;;
    ret (r =? 0)
  else ret false.

(** The body of the loop of lines 85-149: the value appended to
    [current_losses] and whether the loop is left. *)
Definition train_batch (a : args) (epoch steps_per_epoch i : Z) (b : batch)
    : M (Q * bool) :=
  loc <- batch_forward_loss a b ;;
  backward_and_optimize (l_loss loc) ;;
  let loss_item := item (l_loss loc) in
  g <- gets global_step ;;
  modify (set_global_step (g + 1)) ;;
  log_train_step a epoch steps_per_epoch i loc ;;
  brk <- debug_break a i ;;
  ret (loss_item, brk).

(** [for i, batch in enumerate(train_loader)], from index [i] on, with
    the losses collected so far. *)
Fixpoint train_loop (a : args) (epoch steps_per_epoch i : Z)
    (batches : list batch) (current_losses : list Q) : M (list Q) :=
  match batches with
  | [] => ret current_losses
  | b :: rest =>
      '(loss_item, brk) <- train_batch a epoch steps_per_epoch i b ;;
      let current_losses := (current_losses ++ [loss_item])%list in
      if brk then ret current_losses
      else train_loop a epoch steps_per_epoch (i + 1) rest current_losses
  end.

Definition train_one_epoch (a : args) (epoch : Z) (train_loader : list batch)
    (train_loss_ref : list_ref) : M unit :=
  modify (set_training true) ;;
  let steps_per_epoch := Z.of_nat (List.length train_loader) in
  current_losses <- train_loop a epoch steps_per_epoch 0 train_loader [] ;;
  sch <- gets lr_scheduler ;;
  match sch with
  | Some _ => ret tt
  | None =>
      r <- lift (py_mod (epoch + 1) (epoch_decay a)) ;;
      when (r =? 0)
        (o <- gets optimizer ;;
         modify (set_optimizer (update_lr o)) ;;
         emit EvUpdateLr)
  end ;;
  m <- lift (mean current_losses) ;;
  append_to train_loss_ref m ;;
  emit (EvWandbLog [("Training loss (epoch)", m)]).

(** *** [validate] *)

(** The accumulators of lines 172-175. *)
Record val_acc : Type := mkAcc {
  correct_1 : Z;
  correct_5 : Z;
  total : Z;
  current_losses : list Q
}.

(** Lines 223-229 *)
Definition log_val_step (a : args) (steps_per_epoch i : Z)
    (loc : batch_locals) : M unit :=
  r <- lift (py_mod i (log_freq a)) ;;
  when (r =? 0)
    (print_write
       ("Validation/Test Step [" ++ str_of_Z (i + 1) ++ "/"
        ++ str_of_Z steps_per_epoch ++ "] Loss: "
        ++ format_f 8 (item (l_loss loc)) ++ newline) ;;
     when (is_some (l_masks loc)) (emit EvDecodeText)).

(** The body of the loop of lines 178-232: the accumulators after the
    batch and whether the loop is left. *)
Definition validate_batch (a : args) (steps_per_epoch i : Z) (b : batch)
    (acc : val_acc) : M (val_acc * bool) :=
  loc <- batch_forward_loss a b ;;
  let losses := (current_losses acc ++ [item (l_loss loc)])%list in
  let total' := total acc + Z.of_nat (List.length (l_labels loc)) in
  let curr_corr_list := accuracy (l_outputs loc) (l_labels loc) in
  let correct_1' := correct_1 acc + fst curr_corr_list in
  let correct_5' := correct_5 acc + snd curr_corr_list in
  log_val_step a steps_per_epoch i loc ;;
  brk <- debug_break a i ;;
  ret (mkAcc correct_1' correct_5' total' losses, brk).

Fixpoint validate_loop (a : args) (steps_per_epoch i : Z)
    (batches : list batch) (acc : val_acc) : M val_acc :=
  match batches with
  | [] => ret acc
  | b :: rest =>
      '(acc', brk) <- validate_batch a steps_per_epoch i b acc ;;
      if brk then ret acc'
      else validate_loop a steps_per_epoch (i + 1) rest acc'
  end.

(** [100 * correct / total] *)
Definition percentage (correct total : Z) : result Q :=
  py_truediv (inject_Z (100 * correct)) total.

Definition top1_line (acc : Q) : string :=
  "Val/Test Top-1 Accuracy of the model on the test images: "
  ++ format_f 4 acc ++ " %".

Definition top5_line (acc : Q) : string :=
  "Val/Test Top-5 Accuracy of the model on the test images: "
  ++ format_f 4 acc ++ " %".

(** [validate(args, f, global_step, model, device, tokenizer, loader,
              mask_scheduler, top1_accuracies, top5_accuracies,
              val_loss_avg=[])]: the three list parameters are references;
    a caller that omits [val_loss_avg] passes [ValidateDefault]. *)
Definition validate (a : args) (loader : list batch)
    (top1_ref top5_ref val_loss_ref : list_ref) : M Q :=
  modify (set_training false) ;;
  let steps_per_epoch := Z.of_nat (List.length loader) in
  acc <- validate_loop a steps_per_epoch 0 loader (mkAcc 0 0 0 []) ;;
  m <- lift (mean (current_losses acc)) ;;
  append_to val_loss_ref m ;;
  curr_top1_acc <- lift (percentage (correct_1 acc) (total acc)) ;;
  append_to top1_ref curr_top1_acc ;;
  print_write (top1_line curr_top1_acc) ;;
  curr_top5_acc <- lift (percentage (correct_5 acc) (total acc)) ;;
  append_to top5_ref curr_top5_acc ;;
  print_write (top5_line curr_top5_acc) ;;
  h <- gets heap ;;
  emit (EvWandbLog
          [("Epoch", inject_Z (Z.of_nat (List.length (deref top1_ref h))));
           ("Val Accuracy Top-1", curr_top1_acc);
           ("Val Accuracy Top-5", curr_top5_acc);
           ("Val Loss", m)]) ;;
  ret curr_top1_acc.

(** *** [train_main] *)

(** [os.path.join(a, b)] (POSIX): an absolute [b] replaces [a]; a
    separator is inserted unless [a] is empty or ends with one. *)
Definition starts_with_sep (p : string) : bool :=
  match p with
  | String c _ => Ascii.eqb c "/"
  | EmptyString => false
  end.

Fixpoint ends_with_sep (p : string) : bool :=
  match p with
  | EmptyString => false
  | String c EmptyString => Ascii.eqb c "/"
  | String _ rest => ends_with_sep rest
  end.

Definition path_join (a b : string) : string :=
  if starts_with_sep b then b
  else if String.eqb a EmptyString || ends_with_sep a then a ++ b
  else a ++ "/" ++ b.

(** [os.path.join(args.results_dir, '{}.ckpt'.format(args.run_name))] *)
Definition checkpoint_path (a : args) : string :=
  path_join (results_dir a) (run_name a ++ ".ckpt").

(** The locals of [train_main] that the epoch loop carries. *)
Record best : Type := mkBest {
  best_epoch : Z;
  top_acc : Q;
  max_memory : Q
}.

(** Lines 276-295, one epoch. *)
Definition run_epoch (a : args) (train_loader val_loader : list batch)
    (epoch : Z) (bst : best) : M best :=
  train_one_epoch a epoch train_loader TrainLossAvg ;;
  t <- gets torch ;;
  let curr_max_memory :=
    round_double (max_memory_reserved t / inject_Z (1024 ^ 3)) in
  let max_memory' :=
    if Qgtb curr_max_memory (max_memory bst) then curr_max_memory
    else max_memory bst in
  curr_acc <- validate a val_loader Top1Accuracies Top5Accuracies ValLossAvg ;;
  if Qgtb curr_acc (top_acc bst) then
    m <- gets model ;;
    modify (set_checkpoint (Some m)) ;;
    emit (EvTorchSave (checkpoint_path a) m) ;;
    ret (mkBest (epoch + 1) curr_acc max_memory')
  else ret (mkBest (best_epoch bst) (top_acc bst) max_memory').

(** [for epoch in range(args.no_epochs)] *)
Fixpoint epoch_loop (a : args) (train_loader val_loader : list batch)
    (epochs : list Z) (bst : best) : M best :=
  match epochs with
  | [] => ret bst
  | epoch :: rest =>
      bst' <- run_epoch a train_loader val_loader epoch bst ;;
      epoch_loop a train_loader val_loader rest bst'
  end.

(** Lines 264-299: the fresh lists and counter, the epoch loop and the
    pass over the test loader, which omits [val_loss_avg].  The result is
    the value of the locals at line 299. *)
Definition train_main_locals (a : args)
    (train_loader val_loader test_loader : list batch) : M best :=
  modify (fun s =>
            set_heap (mkLists [] [] [] [] (validate_default (heap s))) s) ;;
  modify (set_global_step 0) ;;
  bst <- epoch_loop a train_loader val_loader (py_range (no_epochs a))
           (mkBest 0 0 0) ;;
  validate a test_loader Top1Accuracies Top5Accuracies ValidateDefault ;;
  ret bst.

(** [train_main], from the environment [environment_loader] built; wall
    clock times are left out of the summary. *)
Definition train_main (a : args)
    (train_loader val_loader test_loader : list batch) : M unit :=
  bst <- train_main_locals a train_loader val_loader test_loader ;;
  emit (EvSummary (top_acc bst) (best_epoch bst) (max_memory bst)).

(** ** Reasoning about computations *)

Lemma bind_Ok {A B} (c : M A) (k : A -> M B) (s : state) (b : B) (s' : state) :
  bind c k s = Ok (b, s') ->
  exists a s1, c s = Ok (a, s1) /\ k a s1 = Ok (b, s').
Proof.
  unfold bind. destruct (c s) as [[a s1]|e]; [|discriminate].
  intro H. exists a, s1. split; [reflexivity|exact H].
Qed.

Lemma lift_Ok {A} (r : result A) (s : state) (a : A) (s' : state) :
  lift r s = Ok (a, s') -> r = Ok a /\ s' = s.
Proof.
  unfold lift. destruct r; [|discriminate].
  intro H. injection H as -> ->. split; reflexivity.
Qed.

Lemma bind_run {A B} (c : M A) (k : A -> M B) (s : state) (a : A) (s1 : state) :
  c s = Ok (a, s1) -> bind c k s = k a s1.
Proof. intro H. unfold bind. rewrite H. reflexivity. Qed.

Lemma Ok_inj {A} (x y : A) : Ok x = Ok y -> x = y.
Proof. intro H. injection H as H. exact H. Qed.

(** [inj_subst H] uses an equation between results, pairs or variables
    and nothing else of the context. *)
Ltac inj_subst H :=
  lazymatch type of H with
  | ?a = ?a => clear H
  | Ok _ = Ok _ => apply Ok_inj in H; inj_subst H
  | (_, _) = (_, _) =>
      let H1 := fresh "H" in
      let H2 := fresh "H" in
      pose proof (f_equal fst H) as H1;
      pose proof (f_equal snd H) as H2;
      cbn [fst snd] in H1, H2; clear H;
      inj_subst H1; inj_subst H2
  | ?a = ?b => first [ is_var b; subst b | is_var a; subst a | idtac ]
  | _ => idtac
  end.

(** [minv H] takes a successful run [H : c s = Ok (x, s')] apart, one
    statement of [c] at a time. *)
Ltac minv H :=
  lazymatch type of H with
  | bind _ _ _ = Ok _ =>
      let a := fresh "a" in
      let s1 := fresh "s" in
      let E := fresh "E" in
      apply bind_Ok in H; destruct H as (a & s1 & E & H);
      cbv beta in H; minv E; minv H
  | lift _ _ = Ok _ =>
      let E := fresh "E" in
      apply lift_Ok in H; destruct H as [E H]; inj_subst H
  | ret _ _ = Ok _ => unfold ret in H; inj_subst H
  | gets _ _ = Ok _ => unfold gets in H; inj_subst H
  | modify _ _ = Ok _ => unfold modify in H; inj_subst H
  | emit _ _ = Ok _ => unfold emit, modify in H; inj_subst H
  | print_write _ _ = Ok _ =>
      unfold print_write, emit, modify in H; inj_subst H
  | append_to _ _ _ = Ok _ => unfold append_to, modify in H; inj_subst H
  | (let (_, _) := ?p in _) _ = Ok _ =>
      let x := fresh "x" in
      let y := fresh "y" in
      let E := fresh "E" in
      destruct p as [x y] eqn:E; minv H
  | _ => idtac
  end.

(** *** The trace only grows *)

Definition extends (s s' : state) (evs : list event) : Prop :=
  trace s' = (trace s ++ evs)%list.

Lemma extends_refl (s : state) : extends s s [].
Proof. unfold extends. rewrite app_nil_r. reflexivity. Qed.

Lemma extends_trans (s1 s2 s3 : state) (e1 e2 : list event) :
  extends s1 s2 e1 -> extends s2 s3 e2 -> extends s1 s3 (e1 ++ e2)%list.
Proof.
  unfold extends. intros H1 H2. rewrite H2, H1, app_assoc. reflexivity.
Qed.

(** *** What one batch's forward pass touches

    [only_torch s s' evs]: between [s] and [s'] nothing but the numeric
    runtime's own state changed, and the calls [evs] were made. *)
Definition only_torch (s s' : state) (evs : list event) : Prop :=
  global_step s' = global_step s /\
  model s' = model s /\
  training s' = training s /\
  optimizer s' = optimizer s /\
  lr_scheduler s' = lr_scheduler s /\
  heap s' = heap s /\
  checkpoint s' = checkpoint s /\
  extends s s' evs.

Lemma query_masks_effect (s : state) (mk : option tensor2) (s' : state) :
  query_masks s = Ok (mk, s') ->
  only_torch s s' [EvRetMask (global_step s)] /\
  mk = fst (ret_mask (torch s) (global_step s)).
Proof.
  unfold query_masks. intro H. minv H.
  unfold only_torch, extends. simpl. repeat split; reflexivity.
Qed.

Lemma call_model_effect (images : Images)
    (text : option (tensor2 * option tensor2)) (s : state) (o : model_out)
    (s' : state) :
  call_model images text s = Ok (o, s') ->
  only_torch s s' [EvModelCall (training s)] /\
  o = fst (model_call (training s) (model s) (torch s) images text).
Proof.
  unfold call_model. intro H. minv H.
  unfold only_torch, extends. simpl. repeat split; reflexivity.
Qed.

Lemma forward_effect (a : args) (images : Images)
    (captions masks : option tensor2) (s : state)
    (r : logits * option TextLogits * option Scalar) (s' : state) :
  forward a images captions masks s = Ok (r, s') ->
  only_torch s s' [EvModelCall (training s)].
Proof.
  unfold forward. intro H.
  destruct (multimodal a), (mask_schedule a), (exclusion_loss a);
    cbn [andb] in H; minv H;
    try (destruct captions; [|discriminate]);
    match goal with
    | E : call_model _ _ _ = Ok _ |- _ =>
        exact (proj1 (call_model_effect _ _ _ E))
    end.
Qed.

Lemma only_torch_trans (s1 s2 s3 : state) (e1 e2 : list event) :
  only_torch s1 s2 e1 -> only_torch s2 s3 e2 ->
  only_torch s1 s3 (e1 ++ e2)%list.
Proof.
  unfold only_torch.
  intros (A1 & A2 & A3 & A4 & A5 & A6 & A7 & A8)
         (B1 & B2 & B3 & B4 & B5 & B6 & B7 & B8).
  repeat split; try congruence.
  eapply extends_trans; eassumption.
Qed.

Lemma batch_forward_loss_effect (a : args) (b : batch) (s : state)
    (loc : batch_locals) (s' : state) :
  batch_forward_loss a b s = Ok (loc, s') ->
  only_torch s s' [EvRetMask (global_step s); EvModelCall (training s)].
Proof.
  unfold batch_forward_loss. intro H. minv H.
  match goal with
  | Hq : query_masks _ = Ok _, Hf : forward _ _ _ _ _ = Ok _ |- _ =>
      apply query_masks_effect in Hq; destruct Hq as [Hq _];
      apply forward_effect in Hf;
      pose proof (only_torch_trans Hq Hf) as Ht;
      destruct Hq as (_ & _ & Htr & _);
      rewrite Htr in Ht; exact Ht
  end.
Qed.

(** *** Validation leaves the training state alone *)

(** The calls a validation pass may make, given the value [g] of the
    step counter and the mode [tr] of the network when the pass started:
    only mask queries at [g], forward passes in mode [tr], and output. *)
Definition validation_event (g : Z) (tr : bool) (e : event) : Prop :=
  match e with
  | EvRetMask step => step = g
  | EvModelCall t => t = tr
  | EvPrintWrite _ | EvWandbLog _ | EvDecodeText => True
  | EvOptimizerStep | EvLrSchedulerStep _ | EvUpdateLr
  | EvTorchSave _ _ | EvSummary _ _ _ => False
  end.

Lemma log_val_step_effect (a : args) (spe i : Z) (loc : batch_locals)
    (s : state) (u : unit) (s' : state) :
  log_val_step a spe i loc s = Ok (u, s') ->
  exists evs, only_torch s s' evs /\
    forall g tr, Forall (validation_event g tr) evs.
Proof.
  unfold log_val_step. intro H. minv H.
  destruct (a0 =? 0); cbn [when] in H.
  - minv H. destruct (is_some (l_masks loc)); cbn [when] in H; minv H.
    + eexists. split.
      * unfold only_torch, extends. cbn.
        repeat split; try reflexivity.
        rewrite <- ?app_assoc. reflexivity.
      * intros. repeat constructor.
    + eexists. split.
      * unfold only_torch, extends. cbn. repeat split; reflexivity.
      * intros. repeat constructor.
  - minv H. exists []. split.
    + unfold only_torch. repeat split; try reflexivity. apply extends_refl.
    + intros. constructor.
Qed.

Lemma debug_break_effect (a : args) (i : Z) (s : state) (b : bool)
    (s' : state) :
  debug_break a i s = Ok (b, s') -> s' = s.
Proof.
  unfold debug_break. destruct (debugging a); intro H; minv H; reflexivity.
Qed.

Lemma validate_batch_effect (a : args) (spe i : Z) (b : batch)
    (acc : val_acc) (s : state) (r : val_acc * bool) (s' : state) :
  validate_batch a spe i b acc s = Ok (r, s') ->
  exists evs, only_torch s s' evs /\
    Forall (validation_event (global_step s) (training s)) evs.
Proof.
  unfold validate_batch. intro H. minv H.
  match goal with
  | Hb : batch_forward_loss _ _ _ = Ok _,
    Hl : log_val_step _ _ _ _ _ = Ok _,
    Hd : debug_break _ _ _ = Ok _ |- _ =>
      apply batch_forward_loss_effect in Hb;
      apply log_val_step_effect in Hl; destruct Hl as (evs & Hl & Hev);
      apply debug_break_effect in Hd; subst
  end.
  eexists. split.
  - eapply only_torch_trans; eassumption.
  - apply Forall_app. split; [|apply Hev].
    repeat constructor.
Qed.

Lemma validate_loop_effect (a : args) (spe : Z) (batches : list batch) :
  forall (i : Z) (acc : val_acc) (s : state) (acc' : val_acc) (s' : state),
  validate_loop a spe i batches acc s = Ok (acc', s') ->
  exists evs, only_torch s s' evs /\
    Forall (validation_event (global_step s) (training s)) evs.
Proof.
  induction batches as [|b rest IH]; intros i acc s acc' s' H; cbn in H.
  - minv H. exists []. split; [|constructor].
    unfold only_torch. repeat split; try reflexivity. apply extends_refl.
  - minv H.
    match goal with
    | Hb : validate_batch _ _ _ _ _ _ = Ok _ |- _ => rename Hb into HB
    end.
    apply validate_batch_effect in HB. destruct HB as (e1 & HB & Hev1).
    match goal with
    | brk : bool |- _ => destruct brk
    end.
    + minv H. exists e1. split; assumption.
    + apply IH in H. destruct H as (e2 & H2 & Hev2).
      exists (e1 ++ e2)%list. split.
      * eapply only_torch_trans; eassumption.
      * apply Forall_app. split; [exact Hev1|].
        destruct HB as (Hg & _ & Ht & _). rewrite Hg, Ht in Hev2. exact Hev2.
Qed.

(** *** [validate], taken apart *)

Definition push (r : list_ref) (x : Q) (h : lists) : lists :=
  assign r (deref r h ++ [x])%list h.

Lemma validate_inv (a : args) (loader : list batch)
    (r1 r5 rl : list_ref) (s : state) (acc : Q) (s' : state) :
  validate a loader r1 r5 rl s = Ok (acc, s') ->
  exists va s1 m top5,
    validate_loop a (Z.of_nat (List.length loader)) 0 loader (mkAcc 0 0 0 [])
      (set_training false s) = Ok (va, s1) /\
    mean (current_losses va) = Ok m /\
    percentage (correct_1 va) (total va) = Ok acc /\
    percentage (correct_5 va) (total va) = Ok top5 /\
    heap s' = push r5 top5 (push r1 acc (push rl m (heap s1))) /\
    trace s' =
      (trace s1 ++
       [EvPrintWrite (top1_line acc); EvPrintWrite (top5_line top5);
        EvWandbLog
          [("Epoch",
            inject_Z (Z.of_nat (List.length (deref r1 (heap s')))));
           ("Val Accuracy Top-1", acc);
           ("Val Accuracy Top-5", top5);
           ("Val Loss", m)]])%list /\
    global_step s' = global_step s1 /\
    model s' = model s1 /\
    training s' = training s1 /\
    optimizer s' = optimizer s1 /\
    lr_scheduler s' = lr_scheduler s1 /\
    torch s' = torch s1 /\
    checkpoint s' = checkpoint s1.
Proof.
  unfold validate. intro H. minv H.
  do 4 eexists.
  repeat match goal with |- _ /\ _ => split end;
    try eassumption; try reflexivity.
  cbn. rewrite <- ?app_assoc. reflexivity.
Qed.

(** What a validation pass leaves alone. *)
Lemma validate_effect (a : args) (loader : list batch)
    (r1 r5 rl : list_ref) (s : state) (acc : Q) (s' : state) :
  validate a loader r1 r5 rl s = Ok (acc, s') ->
  global_step s' = global_step s /\
  optimizer s' = optimizer s /\
  current_lr (optimizer s') = current_lr (optimizer s) /\
  lr_scheduler s' = lr_scheduler s /\
  model s' = model s /\
  checkpoint s' = checkpoint s /\
  exists evs,
    trace s' = (trace s ++ evs)%list /\
    Forall (validation_event (global_step s) false) evs.
Proof.
  intro H. apply validate_inv in H.
  destruct H as (va & s1 & m & top5 & Hloop & _ & _ & _ & _ & Htr & Hg & Hm
                 & _ & Ho & Hl & _ & Hc).
  apply validate_loop_effect in Hloop.
  destruct Hloop as (evs & (Lg & Lm & _ & Lo & Ll & _ & Lc & Lt) & Hev).
  cbn in Lg, Lm, Lo, Ll, Lc, Hev. unfold extends in Lt. cbn in Lt.
  repeat split; try congruence.
  eexists. split.
  - rewrite Htr, Lt, <- app_assoc. reflexivity.
  - apply Forall_app. split; [exact Hev|]. repeat constructor.
Qed.

(** *** C4 *)

(** C4. A validation pass does not touch the step counter, the optimizer
    (hence its learning rate), the learning-rate scheduler, the network's
    parameters or the checkpoint: after [validate] returns they are what
    they were at entry.  The calls it makes are mask queries, all at the
    counter value training left, forward passes in evaluation mode and
    output; it makes no optimizer step and no scheduler step. *)
Theorem validate_frame (a : args) (loader : list batch)
    (r1 r5 rl : list_ref) (s : state) (acc : Q) (s' : state) :
  validate a loader r1 r5 rl s = Ok (acc, s') ->
  global_step s' = global_step s /\
  optimizer s' = optimizer s /\
  current_lr (optimizer s') = current_lr (optimizer s) /\
  lr_scheduler s' = lr_scheduler s /\
  model s' = model s /\
  checkpoint s' = checkpoint s /\
  exists evs,
    trace s' = (trace s ++ evs)%list /\
    Forall (validation_event (global_step s) false) evs.
Proof. exact (@validate_effect a loader r1 r5 rl s acc s'). Qed.

(** *** The step counter during training *)

(** What a trace says about the schedulers: the counter values the mask
    scheduler was queried with, the counter values at which the
    learning-rate scheduler was stepped, the number of optimizer steps. *)
Definition mask_queries (evs : list event) : list Z :=
  flat_map (fun e => match e with EvRetMask g => [g] | _ => [] end) evs.

Definition lr_step_counters (evs : list event) : list Z :=
  flat_map (fun e => match e with EvLrSchedulerStep g => [g] | _ => [] end) evs.

Definition optimizer_steps (evs : list event) : list unit :=
  flat_map (fun e => match e with EvOptimizerStep => [tt] | _ => [] end) evs.

(** The parameters written to the checkpoint file, in order. *)
Definition saves (evs : list event) : list Model :=
  flat_map (fun e => match e with EvTorchSave _ m => [m] | _ => [] end) evs.

(** [g; g+1; ...; g+k-1] *)
Definition steps_from (g : Z) (k : nat) : list Z :=
  map (fun j => g + Z.of_nat j) (seq 0 k).

Lemma steps_from_S (g : Z) (k : nat) :
  steps_from g (S k) = g :: steps_from (g + 1) k.
Proof.
  unfold steps_from. cbn [seq map]. rewrite Z.add_0_r. f_equal.
  rewrite <- seq_shift, map_map. apply map_ext. intro j. lia.
Qed.

Definition output_event (e : event) : Prop :=
  match e with
  | EvPrintWrite _ | EvWandbLog _ | EvDecodeText => True
  | _ => False
  end.

Lemma output_events_silent (evs : list event) :
  Forall output_event evs ->
  mask_queries evs = [] /\ lr_step_counters evs = [] /\
  optimizer_steps evs = [] /\ saves evs = [].
Proof.
  induction 1 as [|e evs He _ (IH1 & IH2 & IH3 & IH4)]; [repeat split|].
  unfold mask_queries, lr_step_counters, optimizer_steps, saves in *.
  cbn [flat_map]. rewrite IH1, IH2, IH3, IH4.
  destruct e; cbn in He; try contradiction; repeat split.
Qed.

Lemma log_train_step_effect (a : args) (epoch spe i : Z)
    (loc : batch_locals) (s : state) (u : unit) (s' : state) :
  log_train_step a epoch spe i loc s = Ok (u, s') ->
  exists evs, only_torch s s' evs /\ torch s' = torch s /\
    Forall output_event evs.
Proof.
  unfold log_train_step. intro H. minv H.
  match goal with r : Z |- _ => destruct (r =? 0) end; cbn [when] in H.
  - minv H. destruct (is_some (l_masks loc)); cbn [when] in H; minv H.
    + eexists. split; [|split].
      * unfold only_torch, extends. cbn.
        repeat split; try reflexivity.
        rewrite <- ?app_assoc. reflexivity.
      * reflexivity.
      * repeat constructor.
    + eexists. split; [|split].
      * unfold only_torch, extends. cbn.
        repeat split; try reflexivity.
        rewrite <- ?app_assoc. reflexivity.
      * reflexivity.
      * repeat constructor.
  - minv H. exists []. split; [|split].
    + unfold only_torch. repeat split; try reflexivity. apply extends_refl.
    + reflexivity.
    + constructor.
Qed.

Lemma backward_and_optimize_effect (loss : Scalar) (s : state) (u : unit)
    (s' : state) :
  backward_and_optimize loss s = Ok (u, s') ->
  global_step s' = global_step s /\
  training s' = training s /\
  heap s' = heap s /\
  checkpoint s' = checkpoint s /\
  torch s' = torch s /\
  is_some (lr_scheduler s') = is_some (lr_scheduler s) /\
  extends s s'
    (EvOptimizerStep ::
     if is_some (lr_scheduler s) then [EvLrSchedulerStep (global_step s)]
     else []).
Proof.
  unfold backward_and_optimize. intro H. minv H.
  cbn [lr_scheduler set_trace set_optimizer set_model] in H.
  destruct (lr_scheduler s) as [sc|] eqn:Hs; minv H;
    unfold extends; cbn; rewrite ?Hs; cbn;
    repeat split; try reflexivity.
  rewrite <- ?app_assoc. reflexivity.
Qed.

(** [trained s s' k evs]: [k] training batches lead from [s] to [s'],
    making the calls [evs]. *)
Definition trained (s s' : state) (k : nat) (evs : list event) : Prop :=
  extends s s' evs /\
  global_step s' = global_step s + Z.of_nat k /\
  mask_queries evs = steps_from (global_step s) k /\
  lr_step_counters evs =
    (if is_some (lr_scheduler s) then steps_from (global_step s) k else []) /\
  List.length (optimizer_steps evs) = k /\
  is_some (lr_scheduler s') = is_some (lr_scheduler s) /\
  training s' = training s /\
  heap s' = heap s /\
  checkpoint s' = checkpoint s /\
  saves evs = [].

Lemma steps_from_app (g : Z) (k1 k2 : nat) :
  steps_from g (k1 + k2) =
  (steps_from g k1 ++ steps_from (g + Z.of_nat k1) k2)%list.
Proof.
  revert g. induction k1 as [|k1 IH]; intro g.
  - cbn [Nat.add]. rewrite Z.add_0_r. reflexivity.
  - cbn [Nat.add]. rewrite !steps_from_S, IH. cbn [app]. do 3 f_equal. lia.
Qed.

Lemma trained_refl (s : state) : trained s s 0 [].
Proof.
  unfold trained. cbn. rewrite Z.add_0_r.
  repeat split; try reflexivity.
  - apply extends_refl.
  - destruct (is_some (lr_scheduler s)); reflexivity.
Qed.

Lemma trained_trans (s1 s2 s3 : state) (k1 k2 : nat) (e1 e2 : list event) :
  trained s1 s2 k1 e1 -> trained s2 s3 k2 e2 ->
  trained s1 s3 (k1 + k2) (e1 ++ e2)%list.
Proof.
  unfold trained.
  intros (A1 & A2 & A3 & A4 & A5 & A6 & A7 & A8 & A9 & A10)
         (B1 & B2 & B3 & B4 & B5 & B6 & B7 & B8 & B9 & B10).
  unfold mask_queries, lr_step_counters, optimizer_steps, saves in *.
  rewrite !flat_map_app, steps_from_app, length_app, A10, B10.
  repeat split; try congruence.
  - eapply extends_trans; eassumption.
  - lia.
  - rewrite A4, B4, A6, A2.
    destruct (is_some (lr_scheduler s1)); reflexivity.
Qed.

Lemma train_batch_effect (a : args) (epoch spe i : Z) (b : batch)
    (s : state) (r : Q * bool) (s' : state) :
  train_batch a epoch spe i b s = Ok (r, s') ->
  exists evs, trained s s' 1 evs.
Proof.
  unfold train_batch. intro H. minv H.
  match goal with
  | Hb : batch_forward_loss _ _ _ = Ok _ |- _ => rename Hb into HB
  end.
  match goal with
  | Hb : backward_and_optimize _ _ = Ok _ |- _ => rename Hb into HO
  end.
  match goal with
  | Hb : log_train_step _ _ _ _ _ _ = Ok _ |- _ => rename Hb into HL
  end.
  match goal with
  | Hb : debug_break _ _ _ = Ok _ |- _ => rename Hb into HD
  end.
  apply batch_forward_loss_effect in HB.
  destruct HB as (F1 & F2 & F3 & F4 & F5 & F6 & F7 & F8).
  apply backward_and_optimize_effect in HO.
  destruct HO as (O1 & O2 & O3 & O4 & O5 & O6 & O7).
  apply log_train_step_effect in HL.
  destruct HL as (evl & (L1 & L2 & L3 & L4 & L5 & L6 & L7 & L8) & L9 & L10).
  apply debug_break_effect in HD. subst.
  cbn in L1, L3, L5, L6, L7, L8. unfold extends in *. cbn in L8.
  destruct (output_events_silent L10) as (S1 & S2 & S3 & S4).
  eexists. unfold trained, extends.
  split; [rewrite L8, O7, F8, <- !app_assoc; reflexivity|].
  unfold mask_queries, lr_step_counters, optimizer_steps, saves in *.
  rewrite !flat_map_app, S1, S2, S3, S4, F5.
  rewrite steps_from_S. unfold steps_from. cbn [seq map].
  repeat split; try congruence.
  - lia.
  - destruct (is_some (lr_scheduler s)); cbn; rewrite ?F1; reflexivity.
  - destruct (is_some (lr_scheduler s)); cbn; rewrite ?F1; reflexivity.
  - destruct (is_some (lr_scheduler s)); reflexivity.
  - destruct (is_some (lr_scheduler s)); reflexivity.
Qed.

Lemma train_loop_effect (a : args) (epoch spe : Z) (batches : list batch) :
  forall (i : Z) (losses : list Q) (s : state) (losses' : list Q)
         (s' : state),
  train_loop a epoch spe i batches losses s = Ok (losses', s') ->
  exists k evs,
    trained s s' k evs /\
    (k <= List.length batches)%nat /\
    (debugging a = false -> k = List.length batches) /\
    List.length losses' = (List.length losses + k)%nat.
Proof.
  induction batches as [|b rest IH]; intros i losses s losses' s' H;
    cbn [train_loop] in H.
  - minv H. exists 0%nat, []. split; [apply trained_refl|].
    repeat split; auto.
  - minv H.
    match goal with
    | Hb : train_batch _ _ _ _ _ _ = Ok _ |- _ => rename Hb into HB
    end.
    pose proof HB as HB'.
    apply train_batch_effect in HB. destruct HB as (e1 & HB).
    match goal with brk : bool |- _ => destruct brk eqn:Hbrk end.
    + minv H. exists 1%nat, e1. split; [exact HB|]. repeat split.
      * cbn. lia.
      * intro Hd. exfalso.
        unfold train_batch in HB'. minv HB'.
        match goal with
        | Hx : debug_break _ _ _ = Ok _ |- _ =>
            unfold debug_break in Hx; rewrite Hd in Hx; minv Hx
        end; discriminate.
      * rewrite length_app. reflexivity.
    + apply IH in H. destruct H as (k & e2 & H2 & Hle & Hall & Hlen).
      exists (1 + k)%nat, (e1 ++ e2)%list.
      split; [eapply trained_trans; eassumption|]. repeat split.
      * cbn. lia.
      * intro Hd. cbn. rewrite (Hall Hd). reflexivity.
      * rewrite Hlen, length_app. cbn. lia.
Qed.

(** *** C2 *)

(** C2 (as the code has it). In a training epoch that completes, [k]
    batches were run (all of them unless the debugging mode left the
    loop early) and the step counter went up by exactly [k]: one
    increment per batch.  The increment is the last of the three: the
    mask scheduler was queried, and the learning-rate scheduler stepped,
    at the counter values [g, g+1, ..., g+k-1], where [g] is the counter
    at the start of the epoch; the batch that is the N-th of a run sees
    the value N-1. *)
Theorem train_one_epoch_counter (a : args) (epoch : Z)
    (train_loader : list batch) (ref : list_ref) (s : state) (u : unit)
    (s' : state) :
  train_one_epoch a epoch train_loader ref s = Ok (u, s') ->
  exists (k : nat) (evs : list event),
    trace s' = (trace s ++ evs)%list /\
    (1 <= k <= List.length train_loader)%nat /\
    (debugging a = false -> k = List.length train_loader) /\
    global_step s' = global_step s + Z.of_nat k /\
    List.length (optimizer_steps evs) = k /\
    mask_queries evs = steps_from (global_step s) k /\
    lr_step_counters evs =
      (if is_some (lr_scheduler s) then steps_from (global_step s) k else []).
Proof.
  unfold train_one_epoch. intro H. minv H.
  match goal with
  | Hl : train_loop _ _ _ _ _ _ _ = Ok _ |- _ => rename Hl into HL
  end.
  apply train_loop_effect in HL.
  destruct HL as (k & evs & (T1 & T2 & T3 & T4 & T5 & T6 & T7 & T8 & T9 & T10)
                  & Hle & Hall & Hlen).
  cbn in T1, T2, T3, T4, T5, T6, T7, T8, T9, Hlen.
  unfold extends in T1. cbn in T1.
  assert (Hk : (1 <= k)%nat).
  { match goal with
    | Hm : mean ?l = Ok _ |- _ => destruct l; [discriminate Hm|]
    end. cbn in Hlen. lia. }
  clear Hlen.
  match goal with
  | Hs : match ?sch with Some _ => _ | None => _ end _ = Ok _ |- _ =>
      rename Hs into HS; destruct sch eqn:Hsch
  end.
  - minv HS. exists k. eexists. split.
    + cbn. rewrite T1, <- !app_assoc. reflexivity.
    + unfold mask_queries, lr_step_counters, optimizer_steps in *.
      rewrite !flat_map_app, T3, T4, length_app, T5. cbn.
      rewrite !app_nil_r. repeat split; auto; lia.
  - minv HS.
    match goal with r : Z |- _ => destruct (r =? 0) end;
      cbn [when] in HS; minv HS; exists k; eexists; (split;
      [ cbn; rewrite T1, <- !app_assoc; reflexivity
      | unfold mask_queries, lr_step_counters, optimizer_steps in *;
        rewrite !flat_map_app, T3, T4, length_app, T5; cbn;
        rewrite ?app_nil_r; repeat split; auto; lia ]).
Qed.
(** *** The forward pass of one batch, statement by statement *)

Lemma query_masks_run (s : state) :
  query_masks s =
  Ok (fst (ret_mask (torch s) (global_step s)),
      set_trace (trace s ++ [EvRetMask (global_step s)])
        (set_torch (snd (ret_mask (torch s) (global_step s))) s)).
Proof.
  unfold query_masks, bind, gets, modify, emit, ret.
  destruct (ret_mask (torch s) (global_step s)) as [mk t']. reflexivity.
Qed.

Lemma call_model_run (images : Images)
    (text : option (tensor2 * option tensor2)) (s : state) :
  call_model images text s =
  Ok (fst (model_call (training s) (model s) (torch s) images text),
      set_trace (trace s ++ [EvModelCall (training s)])
        (set_torch
           (snd (model_call (training s) (model s) (torch s) images text))
           s)).
Proof.
  unfold call_model, bind, gets, modify, emit, ret.
  destruct (model_call (training s) (model s) (torch s) images text)
    as [o t'].
  reflexivity.
Qed.

(** What the forward pass returns, and which components of the
    network's output it binds: the class logits always, the text logits
    with [multimodal] and [mask_schedule], the exclusion term with
    [exclusion_loss]. *)
Lemma forward_run (a : args) (images : Images)
    (captions masks : option tensor2) (s : state)
    (r : logits * option TextLogits * option Scalar) (s' : state) :
  forward a images captions masks s = Ok (r, s') ->
  (multimodal a = true -> captions <> None) /\
  let text :=
    if multimodal a then option_map (fun c => (c, masks)) captions
    else None in
  let o := fst (model_call (training s) (model s) (torch s) images text) in
  r = (out_logits o,
       if multimodal a && mask_schedule a then Some (out_text o) else None,
       if exclusion_loss a then Some (out_exclusion o) else None) /\
  torch s' = snd (model_call (training s) (model s) (torch s) images text).
Proof.
  unfold forward. intro H.
  destruct (multimodal a) eqn:Hm.
  - destruct captions as [c|].
    + cbn [option_map].
      destruct (mask_schedule a), (exclusion_loss a); cbn [andb] in H |- *;
        apply bind_Ok in H; destruct H as (o & s1 & Hc & H);
        rewrite call_model_run in Hc; apply Ok_inj in Hc;
        unfold ret in H; apply Ok_inj in H;
        apply pair_equal_spec in Hc; destruct Hc as [<- <-];
        apply pair_equal_spec in H; destruct H as [<- <-];
        (split; [intros _; discriminate|]); split; reflexivity.
    + exfalso.
      destruct (mask_schedule a), (exclusion_loss a); cbn [andb] in H;
        apply bind_Ok in H; destruct H as (o & s1 & Hc & H);
        discriminate Hc.
  - cbn [andb] in H |- *.
    destruct (exclusion_loss a);
      apply bind_Ok in H; destruct H as (o & s1 & Hc & H);
      rewrite call_model_run in Hc; apply Ok_inj in Hc;
      unfold ret in H; apply Ok_inj in H;
      apply pair_equal_spec in Hc; destruct Hc as [<- <-];
      apply pair_equal_spec in H; destruct H as [<- <-];
      (split; [discriminate|]); split; reflexivity.
Qed.

(** *** C5 *)

(** C5. For every batch that goes through (in training and in
    validation alike, which share these statements): with [masks] what
    the mask scheduler returned for the current value of the step
    counter, and [o] what the network returned for the images of the
    batch (and, in the multimodal mode, its captions and [masks]), in
    the mode and with the parameters of the moment, the total loss is
    the classification cross-entropy of [o]'s class logits against the
    labels of the batch, plus the cross-entropy of [o]'s text logits
    against the text targets exactly when [masks] is a mask, minus
    [exclusion_weight * temperature ** 2] times [o]'s exclusion term
    exactly when the exclusion objective is enabled.  With the
    objective disabled the total is the one-term or two-term loss
    itself: the same value, not one that some arithmetic law would
    equate with it (no law about the tensor operations is assumed). *)
Theorem loss_composition (a : args) (b : batch) (s : state)
    (loc : batch_locals) (s' : state) :
  batch_forward_loss a b s = Ok (loc, s') ->
  exists (images : Images) (captions : option tensor2),
    unpack_batch a b = Ok (images, l_labels loc, captions) /\
    let masks := fst (ret_mask (torch s) (global_step s)) in
    let o :=
      fst (model_call (training s) (model s)
             (snd (ret_mask (torch s) (global_step s))) images
             (option_map (fun c => (c, masks)) captions)) in
    l_masks loc = masks /\
    l_outputs loc = out_logits o /\
    build_text_targets a captions masks = Ok (l_labels_text loc) /\
    (masks <> None -> multimodal a = true /\ mask_schedule a = true) /\
    exists base : Scalar,
      match masks with
      | None => base = criterion (out_logits o) (l_labels loc)
      | Some mk =>
          exists cap lt,
            captions = Some cap /\
            text_targets (max_text_seq_len a) cap mk = Ok lt /\
            l_labels_text loc = Some lt /\
            base = sadd (criterion (out_logits o) (l_labels loc))
                     (criterion_text (out_text o) lt)
      end /\
      l_loss loc =
        (if exclusion_loss a
         then ssub base
                (smul (py_mul (exclusion_weight a)
                         (py_pow (temperature a) 2))
                   (out_exclusion o))
         else base) /\
      (exclusion_loss a = false -> l_loss loc = base).
Proof.
  unfold batch_forward_loss. intro H.
  apply bind_Ok in H. destruct H as ([[images labels] captions] & s0 & HU & H).
  apply lift_Ok in HU. destruct HU as [HU ->].
  apply bind_Ok in H. destruct H as (masks & s1 & HQ & H).
  rewrite query_masks_run in HQ. apply Ok_inj in HQ.
  apply pair_equal_spec in HQ. destruct HQ as [Hmk Hs1].
  apply bind_Ok in H. destruct H as (labels_text & s2 & HT & H).
  apply lift_Ok in HT. destruct HT as [HT ->].
  apply bind_Ok in H.
  destruct H as ([[outputs outputs_text] exclusion] & s3 & HF & H).
  apply forward_run in HF. cbv zeta in HF. destruct HF as (Hcap & HF & _).
  apply bind_Ok in H. destruct H as (loss & s4 & HC & H).
  apply lift_Ok in HC. destruct HC as [HC ->].
  unfold ret in H. apply Ok_inj in H.
  apply pair_equal_spec in H. destruct H as [<- _].
  cbn [l_labels l_masks l_labels_text l_outputs l_loss].
  subst s1. cbn [training model torch set_trace set_torch] in HF.
  assert (Hcaptions : (if multimodal a
                       then option_map (fun c => (c, masks)) captions
                       else None)
                      = option_map (fun c => (c, masks)) captions).
  { unfold unpack_batch in HU.
    destruct (multimodal a); [reflexivity|].
    destruct b; [|discriminate HU].
    apply Ok_inj in HU. apply pair_equal_spec in HU.
    destruct HU as [_ <-]. reflexivity. }
  rewrite Hcaptions in HF. clear Hcaptions.
  cbv zeta. rewrite Hmk.
  set (o := fst (model_call (training s) (model s)
                   (snd (ret_mask (torch s) (global_step s))) images
                   (option_map (fun c => (c, masks)) captions))) in *.
  apply pair_equal_spec in HF. destruct HF as [HF Hex].
  apply pair_equal_spec in HF. destruct HF as [Hout Htext].
  exists images, captions.
  split; [exact HU|]. split; [reflexivity|]. split; [exact Hout|].
  split; [exact HT|].
  unfold compose_loss in HC. unfold build_text_targets in HT.
  destruct masks as [mk|].
  - destruct captions as [cap|]; [|discriminate HT].
    destruct (text_targets (max_text_seq_len a) cap mk) as [lt|e] eqn:Htt;
      [|discriminate HT].
    apply Ok_inj in HT. subst labels_text.
    destruct outputs_text as [ot|]; [|discriminate HC].
    destruct (multimodal a && mask_schedule a) eqn:Hflags;
      [|discriminate Htext].
    apply andb_true_iff in Hflags.
    split; [intros _; exact Hflags|].
    injection Htext as ->.
    exists (sadd (criterion outputs labels) (criterion_text (out_text o) lt)).
    subst outputs. split.
    + exists cap, lt. repeat split; try reflexivity. exact Htt.
    + destruct (exclusion_loss a).
      * destruct exclusion as [ex|]; [|discriminate HC].
        injection Hex as ->. apply Ok_inj in HC. subst loss.
        split; [reflexivity|]. intro; discriminate.
      * apply Ok_inj in HC. subst loss. split; reflexivity.
  - split; [intro Hn; contradiction|].
    exists (criterion outputs labels). subst outputs.
    split; [reflexivity|].
    destruct (exclusion_loss a).
    + destruct exclusion as [ex|]; [|discriminate HC].
      injection Hex as ->. apply Ok_inj in HC. subst loss.
      split; [reflexivity|]. intro; discriminate.
    + apply Ok_inj in HC. subst loss. split; reflexivity.
Qed.

(** *** Text targets *)

Lemma sequence_map_Ok {A B} (f : A -> result B) (g : A -> B) (l : list A) :
  (forall x, In x l -> f x = Ok (g x)) ->
  sequence (map f l) = Ok (map g l).
Proof.
  induction l as [|x l IH]; intro H; cbn [map sequence]; [reflexivity|].
  rewrite (H x (or_introl eq_refl)), IH; [reflexivity|].
  intros y Hy. apply H. right. exact Hy.
Qed.

Lemma nth_error_combine {A B} (l1 : list A) (l2 : list B) (i : nat)
    (x : A) (y : B) :
  nth_error l1 i = Some x -> nth_error l2 i = Some y ->
  nth_error (combine l1 l2) i = Some (x, y).
Proof.
  revert l2 i. induction l1 as [|a l1 IH]; intros [|b l2] [|i] H1 H2;
    cbn in *; try discriminate.
  - congruence.
  - apply IH; assumption.
Qed.

Lemma in_combine_lengths {A B} (P : A -> B -> Prop) (l1 : list A)
    (l2 : list B) :
  Forall2 P l1 l2 -> forall p, In p (combine l1 l2) -> P (fst p) (snd p).
Proof.
  induction 1 as [|a b l1 l2 Hab _ IH]; intros p Hp; cbn in Hp; [contradiction|].
  destruct Hp as [<-|Hp]; [exact Hab|apply IH; exact Hp].
Qed.

(** On operands of one shape [torch.where] is the position-wise choice. *)
Lemma torch_where_same_shape (cond : list (list bool)) (x : Z)
    (other : tensor2) :
  Forall2 (fun c o => List.length c = List.length o) cond other ->
  torch_where cond x other =
  Ok (map (fun p =>
             map (fun q => if (fst q : bool) then x else snd q)
                 (combine (fst p) (snd p)))
          (combine cond other)).
Proof.
  intro Hshape. unfold torch_where. unfold broadcast_with at 1.
  rewrite (Forall2_length Hshape), Nat.eqb_refl.
  apply sequence_map_Ok. intros p Hp.
  pose proof (in_combine_lengths Hshape p Hp) as Hlen. cbn beta in Hlen.
  unfold broadcast_with. rewrite Hlen, Nat.eqb_refl.
  apply sequence_map_Ok. intros q _. reflexivity.
Qed.

Lemma slice_last_inside {A} (m : Z) (row : list A) :
  0 < m -> (Z.to_nat m <= List.length row)%nat ->
  slice_last m row = skipn (List.length row - Z.to_nat m) row.
Proof.
  intros Hm Hle. unfold slice_last.
  assert (E : (- m <? 0) = true) by (apply Z.ltb_lt; lia).
  rewrite E. f_equal. lia.
Qed.

(** The position of the mask that decides text position [j]: the mask
    row is as long as the whole input sequence, its last
    [max_text_seq_len] positions are those of the text. *)
Definition mask_at (m : Z) (mrow : list Z) (j : nat) : Z :=
  nth (List.length mrow - Z.to_nat m + j) mrow 0.

(** *** C6 *)


(** *** What a validation pass counts *)

Definition batch_labels (b : batch) : list Z :=
  match b with
  | Batch2 _ l => l
  | Batch3 _ l _ => l
  end.

Definition sum_Z (l : list Z) : Z := fold_right Z.add 0 l.

(** Over the batches a pass went through, given by the locals of each
    iteration: the number of examples, and the number of those that are
    correct for k = 1 and for k = 5. *)
Definition examples (ran : list batch_locals) : Z :=
  sum_Z (map (fun loc => Z.of_nat (List.length (l_labels loc))) ran).

Definition hits_1 (ran : list batch_locals) : Z :=
  sum_Z (map (fun loc => fst (accuracy (l_outputs loc) (l_labels loc))) ran).

Definition hits_5 (ran : list batch_locals) : Z :=
  sum_Z (map (fun loc => snd (accuracy (l_outputs loc) (l_labels loc))) ran).

(** The loop of lines 178-229 over the batches given, without the test
    that guards [break]: the forward pass and the log line of every
    iteration, and the locals ([labels], [outputs], [loss], ...) of all
    of them. *)
Fixpoint validate_locals (a : args) (steps_per_epoch i : Z)
    (batches : list batch) : M (list batch_locals) :=
  match batches with
  | [] => ret []
  | b :: rest =>
      loc <- batch_forward_loss a b ;;
      log_val_step a steps_per_epoch i loc ;;
      ran <- validate_locals a steps_per_epoch (i + 1) rest ;;
      ret (loc :: ran)
  end.

Lemma batch_forward_loss_labels (a : args) (b : batch) (s : state)
    (loc : batch_locals) (s' : state) :
  batch_forward_loss a b s = Ok (loc, s') -> l_labels loc = batch_labels b.
Proof.
  unfold batch_forward_loss. intro H. minv H. cbn [l_labels].
  match goal with
  | Hu : unpack_batch _ _ = Ok _ |- _ =>
      unfold unpack_batch in Hu;
      destruct (multimodal a), b; try discriminate Hu; inj_subst Hu
  end; reflexivity.
Qed.

Lemma validate_loop_counts (a : args) (spe : Z) (batches : list batch) :
  forall (i : Z) (acc : val_acc) (s : state) (acc' : val_acc) (s' : state),
  validate_loop a spe i batches acc s = Ok (acc', s') ->
  exists ran : list batch_locals,
    total acc' = total acc + examples ran /\
    correct_1 acc' = correct_1 acc + hits_1 ran /\
    correct_5 acc' = correct_5 acc + hits_5 ran /\
    current_losses acc' =
      (current_losses acc ++ map (fun loc => item (l_loss loc)) ran)%list /\
    map l_labels ran =
      map batch_labels (firstn (List.length ran) batches) /\
    (List.length ran <= List.length batches)%nat /\
    (debugging a = false -> List.length ran = List.length batches) /\
    validate_locals a spe i (firstn (List.length ran) batches) s
    = Ok (ran, s').
Proof.
  induction batches as [|b rest IH]; intros i acc s acc' s' H;
    cbn [validate_loop] in H.
  - minv H. exists []. cbn. rewrite !Z.add_0_r, app_nil_r.
    repeat split; auto.
  - minv H.
    match goal with
    | Hb : validate_batch _ _ _ _ _ _ = Ok _ |- _ => rename Hb into HB
    end.
    unfold validate_batch in HB. minv HB.
    match goal with
    | Hb : batch_forward_loss _ _ _ = Ok (?l, _) |- _ =>
        rename Hb into HF; set (loc := l) in *
    end.
    pose proof (batch_forward_loss_labels _ _ _ HF) as Hlab.
    match goal with
    | Hl : log_val_step _ _ _ _ _ = Ok _ |- _ => rename Hl into HL
    end.
    match goal with
    | Hd : debug_break _ _ _ = Ok (?b0, _) |- _ =>
        rename Hd into HD; destruct b0 eqn:Hbrk
    end.
    + pose proof (debug_break_effect _ _ _ HD) as Hsame.
      minv H. exists [loc].
      unfold examples, hits_1, hits_5. cbn [map sum_Z fold_right List.length].
      rewrite !Z.add_0_r, Hlab.
      split; [reflexivity|]. split; [reflexivity|]. split; [reflexivity|].
      split; [reflexivity|]. split; [reflexivity|].
      split; [cbn; lia|]. split.
      * intro Hdbg. unfold debug_break in HD. rewrite Hdbg in HD.
        minv HD. discriminate.
      * cbn [firstn validate_locals].
        erewrite bind_run by exact HF. erewrite bind_run by exact HL.
        cbn [bind ret]. unfold bind, ret. rewrite Hsame. reflexivity.
    + pose proof (debug_break_effect _ _ _ HD) as Hsame.
      apply IH in H.
      destruct H as (ran & H1 & H2 & H3 & H4 & H5 & H6 & H7 & H8).
      cbn [total correct_1 correct_5 current_losses] in H1, H2, H3, H4.
      exists (loc :: ran).
      split; [|split; [|split; [|split; [|split; [|split; [|split]]]]]].
      * rewrite H1. unfold examples, sum_Z. cbn [map fold_right]. lia.
      * rewrite H2. unfold hits_1, sum_Z. cbn [map fold_right]. lia.
      * rewrite H3. unfold hits_5, sum_Z. cbn [map fold_right]. lia.
      * rewrite H4, <- app_assoc. reflexivity.
      * cbn [List.length firstn map]. rewrite H5, Hlab. reflexivity.
      * cbn [List.length]. lia.
      * intro Hd. cbn [List.length]. rewrite (H7 Hd). reflexivity.
      * cbn [List.length firstn validate_locals].
        erewrite bind_run by exact HF. erewrite bind_run by exact HL.
        rewrite Hsame in H8.
        erewrite bind_run by exact H8. reflexivity.
Qed.

(** *** Top-1 and top-5 *)

Lemma firstn_le_incl {A} (n m : nat) (l : list A) (x : A) :
  (n <= m)%nat -> In x (firstn n l) -> In x (firstn m l).
Proof.
  revert n m. induction l as [|y l IH]; intros n m Hle Hin.
  - rewrite firstn_nil in Hin. contradiction.
  - destruct n as [|n]; [contradiction|].
    destruct m as [|m]; [lia|].
    cbn [firstn] in *. destruct Hin as [->|Hin]; [left; reflexivity|].
    right. apply (IH n m); [lia|exact Hin].
Qed.

Lemma in_topk_mono (n m : nat) (scores : list Q) (label : Z) :
  (n <= m)%nat -> in_topk n scores label = true ->
  in_topk m scores label = true.
Proof.
  unfold in_topk. intros Hle H.
  apply existsb_exists in H. destruct H as (c & Hin & Hc).
  apply existsb_exists. exists c. split; [|exact Hc].
  eapply firstn_le_incl; eassumption.
Qed.

Lemma filter_length_mono {A} (f g : A -> bool) (l : list A) :
  (forall x, f x = true -> g x = true) ->
  (List.length (filter f l) <= List.length (filter g l))%nat.
Proof.
  intro Himp. induction l as [|x l IH]; [reflexivity|].
  cbn [filter]. destruct (f x) eqn:Ef.
  - rewrite (Himp x Ef). cbn. lia.
  - destruct (g x); cbn; lia.
Qed.

Lemma accuracy_top1_le_top5 (outputs : logits) (labels : list Z) :
  0 <= fst (accuracy outputs labels) <= snd (accuracy outputs labels).
Proof.
  unfold accuracy, count_topk. cbn [fst snd]. split; [lia|].
  apply inj_le. apply filter_length_mono.
  intros p Hp. eapply in_topk_mono; [|exact Hp]. lia.
Qed.

Lemma hits_1_le_hits_5 (ran : list batch_locals) :
  0 <= hits_1 ran <= hits_5 ran.
Proof.
  unfold hits_1, hits_5, sum_Z.
  induction ran as [|loc ran IH]; cbn [map fold_right]; [lia|].
  pose proof (accuracy_top1_le_top5 (l_outputs loc) (l_labels loc)). lia.
Qed.

Lemma examples_nonneg (ran : list batch_locals) : 0 <= examples ran.
Proof.
  unfold examples, sum_Z.
  induction ran as [|loc ran IH]; cbn [map fold_right]; lia.
Qed.

Lemma percentage_Ok (c t : Z) (q : Q) :
  percentage c t = Ok q ->
  t <> 0 /\ q = round_double (inject_Z (100 * c) / inject_Z t).
Proof.
  unfold percentage, py_truediv. destruct (Z.eqb_spec t 0); [discriminate|].
  intro H. inj_subst H. split; [assumption|reflexivity].
Qed.

Lemma percentage_mono (c1 c5 t : Z) :
  0 < t -> 0 <= c1 -> c1 <= c5 ->
  (round_double (inject_Z (100 * c1) / inject_Z t) <=
   round_double (inject_Z (100 * c5) / inject_Z t))%Q.
Proof.
  intros Ht H0 Hc.
  assert (Hinv : (0 <= / inject_Z t)%Q).
  { apply Qinv_le_0_compat. replace 0%Q with (inject_Z 0) by reflexivity.
    rewrite <- Zle_Qle. lia. }
  apply round_double_mono.
  - unfold Qdiv. apply Qmult_le_0_compat; [|exact Hinv].
    replace 0%Q with (inject_Z 0) by reflexivity. rewrite <- Zle_Qle. lia.
  - unfold Qdiv. apply Qmult_le_compat_r; [|exact Hinv].
    rewrite <- Zle_Qle. lia.
Qed.

(** Everything [validate] reports, in terms of the batches it went
    through. *)
Lemma validate_summary (a : args) (loader : list batch)
    (r1 r5 rl : list_ref) (s : state) (acc : Q) (s' : state) :
  validate a loader r1 r5 rl s = Ok (acc, s') ->
  exists (ran : list batch_locals) (top5 m : Q) (s1 : state),
    map l_labels ran =
      map batch_labels (firstn (List.length ran) loader) /\
    (List.length ran <= List.length loader)%nat /\
    (debugging a = false -> List.length ran = List.length loader) /\
    0 < examples ran /\
    acc = round_double (inject_Z (100 * hits_1 ran) / inject_Z (examples ran)) /\
    top5 = round_double (inject_Z (100 * hits_5 ran) / inject_Z (examples ran)) /\
    mean (map (fun loc => item (l_loss loc)) ran) = Ok m /\
    heap s' = push r5 top5 (push r1 acc (push rl m (heap s))) /\
    trace s' =
      (trace s1 ++
       [EvPrintWrite (top1_line acc); EvPrintWrite (top5_line top5);
        EvWandbLog
          [("Epoch",
            inject_Z (Z.of_nat (List.length (deref r1 (heap s')))));
           ("Val Accuracy Top-1", acc);
           ("Val Accuracy Top-5", top5);
           ("Val Loss", m)]])%list /\
    validate_locals a (Z.of_nat (List.length loader)) 0
      (firstn (List.length ran) loader) (set_training false s)
    = Ok (ran, s1).
Proof.
  intro H. apply validate_inv in H.
  destruct H as (va & s1 & m & top5 & Hloop & Hm & Hp1 & Hp5 & Hh & Htr & _).
  pose proof (validate_loop_effect _ _ _ _ _ _ Hloop) as (evs & Hot & _).
  destruct Hot as (_ & _ & _ & _ & _ & Hheap & _). cbn in Hheap.
  apply validate_loop_counts in Hloop.
  destruct Hloop as (ran & Ht & H1 & H5 & Hl & Hlab & Hle & Hall & Hpin).
  cbn in Ht, H1, H5, Hl.
  apply percentage_Ok in Hp1. destruct Hp1 as [Hnz ->].
  apply percentage_Ok in Hp5. destruct Hp5 as [_ ->].
  exists ran. eexists. exists m, s1.
  rewrite Ht, H1, H5, Hl, Hheap in *.
  pose proof (examples_nonneg ran).
  repeat split; auto; try lia.
Qed.

(** *** C7 *)

(** C7. A validation pass that returns went through at least one
    example.  With [ran] the iterations it went through (the forward
    passes of the loop over the first batches of the loader: all of
    them unless the debugging mode left the loop), [total] the number of
    their examples and [correct_1], [correct_5] the numbers of those
    that the outputs of the network get right for k = 1 and k = 5, the
    value returned is the float [100 * correct_1 / total]; it is the
    value appended to the top-1 history and printed, with four decimals,
    in the top-1 line, and the float [100 * correct_5 / total] is
    appended to the top-5 history and printed in the top-5 line.  With
    1000 examples, 800 and 950 correct, the lines read 80.0000 % and
    95.0000 %. *)
Theorem validate_reports_percentages (a : args) (loader : list batch)
    (r1 r5 rl : list_ref) (s : state) (acc : Q) (s' : state) :
  validate a loader r1 r5 rl s = Ok (acc, s') ->
  exists (ran : list batch_locals) (s1 : state) (top5 : Q),
    validate_locals a (Z.of_nat (List.length loader)) 0
      (firstn (List.length ran) loader) (set_training false s)
    = Ok (ran, s1) /\
    (List.length ran <= List.length loader)%nat /\
    (debugging a = false -> List.length ran = List.length loader) /\
    map l_labels ran =
      map batch_labels (firstn (List.length ran) loader) /\
    0 < examples ran /\
    percentage (hits_1 ran) (examples ran) = Ok acc /\
    percentage (hits_5 ran) (examples ran) = Ok top5 /\
    acc = round_double (inject_Z (100 * hits_1 ran) / inject_Z (examples ran)) /\
    top5 = round_double (inject_Z (100 * hits_5 ran) / inject_Z (examples ran)) /\
    In (EvPrintWrite (top1_line acc)) (trace s') /\
    In (EvPrintWrite (top5_line top5)) (trace s') /\
    (exists l5, deref r5 (heap s') = (l5 ++ [top5])%list) /\
    (list_ref_eqb r1 r5 = false ->
     exists l1, deref r1 (heap s') = (l1 ++ [acc])%list) /\
    (examples ran = 1000 -> hits_1 ran = 800 -> hits_5 ran = 950 ->
     (acc == 80)%Q /\ (top5 == 95)%Q /\
     top1_line acc =
       "Val/Test Top-1 Accuracy of the model on the test images: 80.0000 %" /\
     top5_line top5 =
       "Val/Test Top-5 Accuracy of the model on the test images: 95.0000 %").
Proof.
  intro H. apply validate_summary in H.
  destruct H as (ran & top5 & m & s1 & Hlab & Hle & Hall & Hpos & Hacc
                 & Htop5 & _ & Hheap & Htr & Hpin).
  exists ran, s1, top5.
  assert (Hp : forall c, percentage c (examples ran) =
                 Ok (round_double (inject_Z (100 * c)
                                   / inject_Z (examples ran)))).
  { intro c. unfold percentage, py_truediv.
    destruct (Z.eqb_spec (examples ran) 0); [lia|reflexivity]. }
  repeat match goal with |- _ /\ _ => split end; auto.
  - rewrite Hacc. apply Hp.
  - rewrite Htop5. apply Hp.
  - rewrite Htr. apply in_or_app. right. left. reflexivity.
  - rewrite Htr. apply in_or_app. right. right. left. reflexivity.
  - rewrite Hheap. unfold push at 1. rewrite deref_assign.
    destruct r5; cbn [list_ref_eqb]; eexists; reflexivity.
  - intro Hne. rewrite Hheap. unfold push at 1. rewrite deref_assign, Hne.
    unfold push at 1. rewrite deref_assign.
    destruct r1; cbn [list_ref_eqb]; eexists; reflexivity.
  - intros E1 E2 E3. rewrite E1, E2 in Hacc. rewrite E1, E3 in Htop5.
    subst acc top5. repeat split; vm_compute; reflexivity.
Qed.

(** *** C3 *)

(** C3 (as the code has it). For every validation pass that returns,
    over any batches and any labels, the top-1 percentage it reports is
    at most the top-5 percentage it reports: an example that is correct
    for k = 1 is correct for k = 5. *)
Theorem validate_top1_le_top5 (a : args) (loader : list batch)
    (r1 r5 rl : list_ref) (s : state) (acc : Q) (s' : state) :
  validate a loader r1 r5 rl s = Ok (acc, s') ->
  exists (top5 m : Q) (n : Z) (pre : list event),
    trace s' =
      (pre ++ [EvWandbLog [("Epoch", inject_Z n);
                           ("Val Accuracy Top-1", acc);
                           ("Val Accuracy Top-5", top5);
                           ("Val Loss", m)]])%list /\
    (acc <= top5)%Q.
Proof.
  intro H. apply validate_summary in H.
  destruct H as (ran & top5 & m & s1 & _ & _ & _ & Hpos & Hacc & Htop5
                 & _ & _ & Htr & _).
  exists top5, m. eexists. eexists. split.
  - rewrite Htr.
    change [EvPrintWrite (top1_line acc); EvPrintWrite (top5_line top5);
            ?x] with ([EvPrintWrite (top1_line acc);
                       EvPrintWrite (top5_line top5)] ++ [x])%list.
    rewrite app_assoc. reflexivity.
  - subst acc top5. apply percentage_mono; [exact Hpos| |];
      apply hits_1_le_hits_5.
Qed.

(** *** One epoch of a run *)

Lemma validation_events_no_save (g : Z) (tr : bool) (evs : list event) :
  Forall (validation_event g tr) evs -> saves evs = [].
Proof.
  induction 1 as [|e evs He _ IH]; [reflexivity|].
  unfold saves in *. cbn [flat_map]. rewrite IH.
  destruct e; cbn in He; try contradiction; reflexivity.
Qed.

Lemma train_one_epoch_inv (a : args) (epoch : Z) (loader : list batch)
    (ref : list_ref) (s : state) (u : unit) (s' : state) :
  train_one_epoch a epoch loader ref s = Ok (u, s') ->
  exists (m : Q) (evs : list event),
    heap s' = push ref m (heap s) /\
    checkpoint s' = checkpoint s /\
    trace s' = (trace s ++ evs)%list /\
    saves evs = [].
Proof.
  unfold train_one_epoch. intro H. minv H.
  match goal with
  | Hl : train_loop _ _ _ _ _ _ _ = Ok _ |- _ => rename Hl into HL
  end.
  apply train_loop_effect in HL.
  destruct HL as (k & evs & (T1 & _ & _ & _ & _ & _ & _ & T8 & T9 & T10) & _).
  cbn in T8, T9. unfold extends in T1. cbn in T1.
  match goal with
  | Hs : match ?sch with Some _ => _ | None => _ end _ = Ok _ |- _ =>
      rename Hs into HS; destruct sch
  end.
  - minv HS. eexists. eexists. cbn. unfold push.
    rewrite T8, T9, T1, <- ?app_assoc. repeat split.
    unfold saves in *. rewrite flat_map_app, T10. reflexivity.
  - minv HS.
    match goal with r : Z |- _ => destruct (r =? 0) end;
      cbn [when] in HS; minv HS; eexists; eexists; cbn; unfold push;
      rewrite T8, T9, T1, <- ?app_assoc; repeat split;
      unfold saves in *; rewrite flat_map_app, T10; reflexivity.
Qed.

Lemma validate_no_save (a : args) (loader : list batch)
    (r1 r5 rl : list_ref) (s : state) (acc : Q) (s' : state) :
  validate a loader r1 r5 rl s = Ok (acc, s') ->
  exists (top5 m : Q) (evs : list event),
    heap s' = push r5 top5 (push r1 acc (push rl m (heap s))) /\
    checkpoint s' = checkpoint s /\
    model s' = model s /\
    trace s' = (trace s ++ evs)%list /\
    saves evs = [].
Proof.
  intro H.
  pose proof (validate_summary _ _ _ _ _ _ H)
    as (ran & top5 & m & s1 & _ & _ & _ & _ & _ & _ & _ & Hh & _).
  pose proof (validate_effect _ _ _ _ _ _ H)
    as (_ & _ & _ & _ & Hm & Hc & evs & Ht & Hev).
  exists top5, m, evs. repeat split; auto.
  eapply validation_events_no_save; eassumption.
Qed.

(** Whether line 291 finds the accuracy of the epoch above the best so
    far decides everything that follows in the epoch. *)
Lemma run_epoch_inv (a : args) (train_loader val_loader : list batch)
    (epoch : Z) (bst : best) (s : state) (bst' : best) (s' : state) :
  run_epoch a train_loader val_loader epoch bst s = Ok (bst', s') ->
  exists (acc tm vm top5 : Q) (evs : list event),
    heap s' =
      push Top5Accuracies top5
        (push Top1Accuracies acc
           (push ValLossAvg vm (push TrainLossAvg tm (heap s)))) /\
    trace s' = (trace s ++ evs)%list /\
    ((top_acc bst < acc)%Q /\
     saves evs = [model s'] /\
     checkpoint s' = Some (model s') /\
     top_acc bst' = acc /\ best_epoch bst' = epoch + 1
     \/
     (acc <= top_acc bst)%Q /\
     saves evs = [] /\
     checkpoint s' = checkpoint s /\
     top_acc bst' = top_acc bst /\ best_epoch bst' = best_epoch bst).
Proof.
  unfold run_epoch. intro H. minv H.
  match goal with
  | Ht : train_one_epoch _ _ _ _ _ = Ok _ |- _ => rename Ht into HT
  end.
  match goal with
  | Hv : validate _ _ _ _ _ _ = Ok (?x, _) |- _ =>
      rename Hv into HV; set (acc := x) in *
  end.
  apply train_one_epoch_inv in HT.
  destruct HT as (tm & e1 & Th & Tc & Tt & Ts).
  apply validate_no_save in HV.
  destruct HV as (top5 & vm & e2 & Vh & Vc & Vm & Vt & Vs).
  destruct (Qgtb acc (top_acc bst)) eqn:Hgt.
  - minv H. apply Qgtb_lt in Hgt.
    exists acc, tm, vm, top5. eexists. cbn.
    rewrite Vh, Th, Vt, Tt, <- ?app_assoc.
    split; [reflexivity|]. split; [reflexivity|].
    left. unfold saves in *. rewrite !flat_map_app, Ts, Vs.
    repeat split; auto.
  - minv H. apply Qgtb_le in Hgt.
    exists acc, tm, vm, top5, (e1 ++ e2)%list. cbn.
    rewrite Vh, Th, Vt, Tt, <- ?app_assoc.
    split; [reflexivity|]. split; [reflexivity|].
    right. unfold saves in *. rewrite !flat_map_app, Ts, Vs.
    repeat split; auto. congruence.
Qed.

(** *** The history lists of a run *)

Lemma py_range_length (n : Z) : List.length (py_range n) = Z.to_nat n.
Proof. unfold py_range. rewrite length_map, length_seq. reflexivity. Qed.

Lemma epoch_loop_heap (a : args) (train_loader val_loader : list batch)
    (epochs : list Z) :
  forall (bst : best) (s : state) (bst' : best) (s' : state),
  epoch_loop a train_loader val_loader epochs bst s = Ok (bst', s') ->
  exists tls vls t1s t5s : list Q,
    List.length tls = List.length epochs /\
    List.length vls = List.length epochs /\
    List.length t1s = List.length epochs /\
    List.length t5s = List.length epochs /\
    heap s' =
      mkLists (train_loss_avg (heap s) ++ tls) (val_loss_avg (heap s) ++ vls)
        (top1_accuracies (heap s) ++ t1s) (top5_accuracies (heap s) ++ t5s)
        (validate_default (heap s)).
Proof.
  induction epochs as [|e rest IH]; intros bst s bst' s' H;
    cbn [epoch_loop] in H.
  - minv H. exists [], [], [], []. rewrite !app_nil_r.
    match goal with |- context [heap ?x] => destruct (heap x) end.
    repeat split.
  - minv H.
    match goal with
    | Hr : run_epoch _ _ _ _ _ _ = Ok _ |- _ => rename Hr into HR
    end.
    apply run_epoch_inv in HR.
    destruct HR as (acc & tm & vm & top5 & evs & Hh & _).
    apply IH in H. destruct H as (tls & vls & t1s & t5s & L1 & L2 & L3 & L4 & Hh').
    exists (tm :: tls), (vm :: vls), (acc :: t1s), (top5 :: t5s).
    cbn [List.length]. rewrite L1, L2, L3, L4.
    repeat split. rewrite Hh', Hh. cbn. rewrite <- !app_assoc. reflexivity.
Qed.

(** *** C10 *)

(** C10. At the end of a run of [no_epochs] epochs the top-1 and the
    top-5 history hold [no_epochs + 1] entries each: the pass over the
    test loader appends to the same two lists.  The validation-loss
    history (like the training-loss history) holds [no_epochs] entries:
    the test pass omits [val_loss_avg], so its mean loss goes to the
    list object that is the parameter's default value, which grows by
    one entry with every such call. *)
Theorem history_lengths (a : args)
    (train_loader val_loader test_loader : list batch) (s : state)
    (u : unit) (s' : state) :
  0 <= no_epochs a ->
  train_main a train_loader val_loader test_loader s = Ok (u, s') ->
  Z.of_nat (List.length (top1_accuracies (heap s'))) = no_epochs a + 1 /\
  Z.of_nat (List.length (top5_accuracies (heap s'))) = no_epochs a + 1 /\
  Z.of_nat (List.length (val_loss_avg (heap s'))) = no_epochs a /\
  Z.of_nat (List.length (train_loss_avg (heap s'))) = no_epochs a /\
  exists test_loss,
    validate_default (heap s') =
      (validate_default (heap s) ++ [test_loss])%list.
Proof.
  intros Hn H. unfold train_main, train_main_locals in H. minv H.
  match goal with
  | He : epoch_loop _ _ _ _ _ _ = Ok _ |- _ => rename He into HE
  end.
  match goal with
  | Hv : validate _ _ _ _ _ _ = Ok _ |- _ => rename Hv into HV
  end.
  apply epoch_loop_heap in HE.
  destruct HE as (tls & vls & t1s & t5s & L1 & L2 & L3 & L4 & Hh).
  rewrite py_range_length in L1, L2, L3, L4.
  apply validate_no_save in HV.
  destruct HV as (top5 & m & evs & Vh & _).
  cbn in Hh. cbn [heap set_trace]. rewrite Vh, Hh. cbn.
  rewrite !length_app, L2, L1, L3, L4. cbn.
  repeat split; try lia.
  exists m. reflexivity.
Qed.

(** *** The debugging mode *)

(** The loop of lines 85-146 over the batches given, without the test
    that guards [break]: the forward pass, the optimizer step, the
    increment of the counter and the log line of every iteration, and
    the locals ([labels], [outputs], [loss], ...) of all of them. *)
Fixpoint train_locals (a : args) (epoch steps_per_epoch i : Z)
    (batches : list batch) : M (list batch_locals) :=
  match batches with
  | [] => ret []
  | b :: rest =>
      loc <- batch_forward_loss a b ;;
      backward_and_optimize (l_loss loc) ;;
      g <- gets global_step ;;
      modify (set_global_step (g + 1)) ;;
      log_train_step a epoch steps_per_epoch i loc ;;
      ran <- train_locals a epoch steps_per_epoch (i + 1) rest ;;
      ret (loc :: ran)
  end.

Lemma train_batch_no_debug (a : args) (epoch spe i : Z) (b : batch)
    (s : state) (li : Q) (brk : bool) (s' : state) :
  debugging a = false ->
  train_batch a epoch spe i b s = Ok ((li, brk), s') -> brk = false.
Proof.
  intros Hd H. unfold train_batch in H. minv H.
  match goal with
  | Hx : debug_break _ _ _ = Ok _ |- _ =>
      unfold debug_break in Hx; rewrite Hd in Hx; minv Hx
  end.
  congruence.
Qed.

(** With the debugging mode on, a batch does what it does with the mode
    off, and then asks for the loop to be left when its 1-based index is
    a multiple of [log_freq * 3]. *)
Lemma train_batch_debug (a : args) (epoch spe i : Z) (b : batch) (s : state) :
  debugging a = true -> log_freq a <> 0 ->
  train_batch a epoch spe i b s =
  match train_batch (with_debugging false a) epoch spe i b s with
  | Ok ((li, _), s') => Ok ((li, (i + 1) mod (log_freq a * 3) =? 0), s')
  | Raise e => Raise e
  end.
Proof.
  intros Hd Hlf. unfold train_batch, bind.
  change (batch_forward_loss (with_debugging false a))
    with (batch_forward_loss a).
  destruct (batch_forward_loss a b s) as [[loc s1]|e]; [|reflexivity].
  destruct (backward_and_optimize (l_loss loc) s1) as [[u s2]|e];
    [|reflexivity].
  unfold gets, modify. cbv beta iota.
  change (log_train_step (with_debugging false a))
    with (log_train_step a).
  destruct (log_train_step a epoch spe i loc
              (set_global_step (global_step s2 + 1) s2)) as [[u' s3]|e];
    [|reflexivity].
  unfold debug_break. rewrite Hd. cbn [debugging with_debugging].
  unfold bind, lift, py_mod, ret.
  destruct (Z.eqb_spec (log_freq a * 3) 0) as [E|_]; [lia|].
  reflexivity.
Qed.

Lemma train_loop_debug (a : args) (epoch spe : Z) (batches : list batch) :
  debugging a = true -> 0 < log_freq a ->
  forall (i : Z) (losses : list Q) (s : state),
  0 <= i < log_freq a * 3 ->
  train_loop a epoch spe i batches losses s =
  train_loop (with_debugging false a) epoch spe i
    (firstn (Z.to_nat (log_freq a * 3 - i)) batches) losses s.
Proof.
  intros Hd Hlf.
  induction batches as [|b rest IH]; intros i losses s Hi.
  - rewrite firstn_nil. reflexivity.
  - replace (Z.to_nat (log_freq a * 3 - i))
      with (S (Z.to_nat (log_freq a * 3 - (i + 1)))) by lia.
    cbn [firstn train_loop]. unfold bind at 1 2.
    rewrite train_batch_debug by (assumption || lia).
    destruct (train_batch (with_debugging false a) epoch spe i b s)
      as [[[li brk] s1]|e] eqn:Eb; [|reflexivity].
    assert (brk = false) by (eapply train_batch_no_debug; [|exact Eb]; reflexivity).
    subst brk.
    destruct (Z.eqb_spec ((i + 1) mod (log_freq a * 3)) 0) as [E|E].
    + assert (i + 1 = log_freq a * 3).
      { destruct (Z.eq_dec (i + 1) (log_freq a * 3)) as [|Hne]; [assumption|].
        rewrite Z.mod_small in E by lia. lia. }
      replace (Z.to_nat (log_freq a * 3 - (i + 1))) with 0%nat by lia.
      reflexivity.
    + apply IH.
      destruct (Z.eq_dec (i + 1) (log_freq a * 3)) as [Heq|Hne]; [|lia].
      exfalso. apply E. rewrite Heq. apply Z.mod_same. lia.
Qed.

(** The iterations do not read [args.debugging]. *)
Lemma train_locals_with_debugging (d : bool) (a : args) (epoch spe : Z)
    (batches : list batch) :
  forall (i : Z) (s : state),
  train_locals (with_debugging d a) epoch spe i batches s =
  train_locals a epoch spe i batches s.
Proof.
  induction batches as [|b rest IH]; intros i s; [reflexivity|].
  cbn [train_locals]. unfold bind.
  change (batch_forward_loss (with_debugging d a))
    with (batch_forward_loss a).
  destruct (batch_forward_loss a b s) as [[loc s1]|e]; [|reflexivity].
  destruct (backward_and_optimize (l_loss loc) s1) as [[u s2]|e];
    [|reflexivity].
  unfold gets, modify. cbv beta iota.
  change (log_train_step (with_debugging d a)) with (log_train_step a).
  destruct (log_train_step a epoch spe i loc
              (set_global_step (global_step s2 + 1) s2)) as [[u' s3]|e];
    [|reflexivity].
  rewrite IH. reflexivity.
Qed.

(** With the debugging mode off, the loop appends the loss of every
    iteration, in order. *)
Lemma train_loop_locals (a : args) (epoch spe : Z) (batches : list batch) :
  debugging a = false ->
  forall (i : Z) (losses : list Q) (s : state) (ran : list batch_locals)
         (s1 : state),
  train_locals a epoch spe i batches s = Ok (ran, s1) ->
  train_loop a epoch spe i batches losses s =
    Ok ((losses ++ map (fun loc => item (l_loss loc)) ran)%list, s1) /\
  List.length ran = List.length batches.
Proof.
  intro Hd.
  induction batches as [|b rest IH]; intros i losses s ran s1 H;
    cbn [train_locals] in H.
  - unfold ret in H. apply Ok_inj in H.
    apply pair_equal_spec in H. destruct H as [<- <-].
    cbn. rewrite app_nil_r. split; reflexivity.
  - apply bind_Ok in H. destruct H as (loc & sa & HF & H).
    apply bind_Ok in H. destruct H as (u & sb & HO & H).
    apply bind_Ok in H. destruct H as (g & sc & HG & H).
    unfold gets in HG. apply Ok_inj in HG.
    apply pair_equal_spec in HG. destruct HG as [<- <-].
    apply bind_Ok in H. destruct H as (u1 & sd & HM & H).
    unfold modify in HM. apply Ok_inj in HM.
    apply pair_equal_spec in HM. destruct HM as [_ <-].
    apply bind_Ok in H. destruct H as (u2 & se & HL & H).
    apply bind_Ok in H. destruct H as (ran' & sf & HR & H).
    unfold ret in H. apply Ok_inj in H.
    apply pair_equal_spec in H. destruct H as [<- <-].
    assert (HB : train_batch a epoch spe i b s =
                 Ok ((item (l_loss loc), false), se)).
    { unfold train_batch, bind. rewrite HF, HO.
      unfold gets, modify. cbv beta iota. rewrite HL.
      unfold debug_break. rewrite Hd. reflexivity. }
    destruct (IH (i + 1) (losses ++ [item (l_loss loc)])%list se ran' sf HR)
      as [IH1 IH2].
    split.
    + cbn [train_loop]. erewrite bind_run by exact HB. cbv beta iota.
      rewrite IH1. cbn [map]. rewrite <- app_assoc. reflexivity.
    + cbn [List.length]. rewrite IH2. reflexivity.
Qed.

(** *** C8 *)

(** C8. With the debugging mode on (and a positive [log_freq]), a
    training epoch runs the first [log_freq * 3] batches of the loader
    (all of them, if the loader is shorter) and then stops: if the
    iterations over those batches go through, so does the epoch; the
    value appended to the loss history is [statistics.mean] of
    [loss.item()] of exactly those iterations (their exact sum divided
    by their number, as a float), the step counter went up by their
    number, and the epoch ends with the parameters the last of them
    left. *)
Theorem debug_epoch_mean (a : args) (epoch : Z) (loader : list batch)
    (ref : list_ref) (s : state) (ran : list batch_locals) (s1 : state) :
  debugging a = true ->
  0 < log_freq a ->
  loader <> [] ->
  (lr_scheduler s = None -> epoch_decay a <> 0) ->
  train_locals a epoch (Z.of_nat (List.length loader)) 0
    (firstn (Z.to_nat (log_freq a * 3)) loader)
    (set_training true s) = Ok (ran, s1) ->
  exists (s' : state) (m : Q),
    train_one_epoch a epoch loader ref s = Ok (tt, s') /\
    List.length ran =
      Nat.min (Z.to_nat (log_freq a * 3)) (List.length loader) /\
    mean (map (fun loc => item (l_loss loc)) ran) = Ok m /\
    m = round_double
          (Qsum (map (fun loc => item (l_loss loc)) ran)
           / inject_Z (Z.of_nat (List.length ran))) /\
    heap s' = push ref m (heap s) /\
    global_step s' = global_step s + Z.of_nat (List.length ran) /\
    model s' = model s1.
Proof.
  intros Hd Hlf Hne Hdecay Hran.
  rewrite <- (train_locals_with_debugging false) in Hran.
  destruct (@train_loop_locals (with_debugging false a) epoch
              (Z.of_nat (List.length loader))
              (firstn (Z.to_nat (log_freq a * 3)) loader) eq_refl
              0 [] _ _ _ Hran) as [H Hlen].
  cbn [app] in H.
  set (losses := map (fun loc => item (l_loss loc)) ran) in *.
  assert (Hloop : train_loop a epoch (Z.of_nat (List.length loader)) 0
                    loader [] (set_training true s) = Ok (losses, s1)).
  { rewrite train_loop_debug by (assumption || lia).
    rewrite Z.sub_0_r. exact H. }
  pose proof (train_loop_effect _ _ _ _ _ _ _ H)
    as (k & evs & (_ & Hg & _ & _ & _ & Hsch & _ & Hheap & _) & _ & Hall & _).
  specialize (Hall eq_refl). rewrite length_firstn in Hall, Hlen.
  cbn in Hg, Hsch, Hheap.
  assert (Hk : (1 <= k)%nat).
  { destruct loader; [congruence|]. cbn [List.length] in Hall. lia. }
  assert (Hll : List.length losses = List.length ran)
    by (unfold losses; apply length_map).
  assert (Hmean : mean losses =
            Ok (round_double
                  (Qsum losses / inject_Z (Z.of_nat (List.length ran))))).
  { rewrite <- Hll. destruct losses; [cbn in Hll; lia|reflexivity]. }
  unfold train_one_epoch.
  unfold bind at 1. unfold modify at 1. cbv beta iota.
  erewrite bind_run by exact Hloop.
  unfold bind at 1. unfold gets at 1. cbv beta iota.
  destruct (lr_scheduler s1) as [sc|] eqn:Es1.
  - unfold bind, ret, lift. rewrite Hmean. cbv beta iota.
    unfold append_to, emit, modify. cbv beta iota.
    eexists. eexists. split; [reflexivity|]. split; [lia|].
    split; [reflexivity|]. split; [reflexivity|].
    split; [cbn; rewrite Hheap; reflexivity|].
    split; [cbn; lia|reflexivity].
  - assert (Hs : lr_scheduler s = None)
      by (destruct (lr_scheduler s); [discriminate Hsch|reflexivity]).
    specialize (Hdecay Hs).
    unfold bind, ret, lift, py_mod.
    destruct (Z.eqb_spec (epoch_decay a) 0) as [E|_]; [contradiction|].
    cbv beta iota.
    destruct ((epoch + 1) mod epoch_decay a =? 0); cbn [when];
      unfold bind, gets, modify, emit, modify, ret, append_to;
      cbv beta iota; rewrite Hmean; cbv beta iota;
      (eexists; eexists; split; [reflexivity|]; split; [lia|];
       split; [reflexivity|]; split; [reflexivity|];
       split; [cbn; rewrite Hheap; reflexivity|];
       split; [cbn; lia|reflexivity]).
Qed.

(** *** The best checkpoint *)

(** The state in which the epoch loop starts: lines 265-273 give the run
    fresh lists and a counter at 0. *)
Definition run_start (s : state) : state :=
  set_global_step 0
    (set_heap (mkLists [] [] [] [] (validate_default (heap s))) s).

Lemma epoch_loop_app (a : args) (tl vl : list batch) (l1 l2 : list Z) :
  forall (b : best) (s : state),
  epoch_loop a tl vl (l1 ++ l2) b s =
  bind (epoch_loop a tl vl l1 b) (epoch_loop a tl vl l2) s.
Proof.
  induction l1 as [|e l1 IH]; intros b s; [reflexivity|].
  cbn [app epoch_loop]. unfold bind in *.
  destruct (run_epoch a tl vl e b s) as [[b1 s1]|err]; [|reflexivity].
  apply IH.
Qed.

Lemma py_range_succ (k : nat) :
  py_range (Z.of_nat (S k)) = (py_range (Z.of_nat k) ++ [Z.of_nat k])%list.
Proof.
  unfold py_range. rewrite !Nat2Z.id, seq_S, map_app. reflexivity.
Qed.

(** The decision of lines 291-295, epoch after epoch, on the accuracies
    alone: the epochs (counted from 1) after which a checkpoint is
    written, and the final [best_epoch] and [top_acc]. *)
Fixpoint selector (epochs : list Z) (accs : list Q) (be : Z) (ta : Q)
    : list Z * (Z * Q) :=
  match epochs, accs with
  | e :: es, x :: xs =>
      if Qgtb x ta
      then let r := selector es xs (e + 1) x in ((e + 1) :: fst r, snd r)
      else selector es xs be ta
  | _, _ => ([], (be, ta))
  end.

Lemma epoch_loop_selector (a : args) (tl vl : list batch) (epochs : list Z) :
  forall (b : best) (s : state) (b' : best) (s' : state),
  epoch_loop a tl vl epochs b s = Ok (b', s') ->
  exists (accs : list Q) (evs : list event),
    top1_accuracies (heap s') = (top1_accuracies (heap s) ++ accs)%list /\
    List.length accs = List.length epochs /\
    trace s' = (trace s ++ evs)%list /\
    List.length (saves evs) =
      List.length (fst (selector epochs accs (best_epoch b) (top_acc b))) /\
    (best_epoch b', top_acc b') =
      snd (selector epochs accs (best_epoch b) (top_acc b)).
Proof.
  induction epochs as [|e rest IH]; intros b s b' s' H;
    cbn [epoch_loop] in H.
  - minv H. exists [], []. rewrite !app_nil_r. repeat split.
  - minv H.
    match goal with
    | Hr : run_epoch _ _ _ _ _ _ = Ok _ |- _ => rename Hr into HR
    end.
    apply run_epoch_inv in HR.
    destruct HR as (acc & tm & vm & top5 & e1 & Hh & Ht & Hcase).
    apply IH in H. destruct H as (accs & e2 & A1 & A2 & A3 & A4 & A5).
    exists (acc :: accs), (e1 ++ e2)%list.
    rewrite A1, Hh, A3, Ht. cbn [top1_accuracies push assign deref].
    rewrite <- !app_assoc. cbn [app List.length selector].
    unfold saves in *. rewrite flat_map_app, length_app.
    split; [reflexivity|]. split; [congruence|]. split; [reflexivity|].
    destruct Hcase as [(Hlt & Hs & _ & Hta & Hbe)|(Hle & Hs & _ & Hta & Hbe)].
    + apply Qgtb_lt in Hlt. rewrite Hlt. cbn [fst snd List.length].
      rewrite Hs, A4, A5, Hta, Hbe. split; reflexivity.
    + apply Qgtb_le in Hle. rewrite Hle.
      rewrite Hs, A4, A5, Hta, Hbe. split; reflexivity.
Qed.

(** After any number of epochs of a run, [top_acc] is 0 or one of the
    accuracies seen, and none of them exceeds it. *)
Lemma best_so_far (a : args) (tl vl : list batch) (k : nat) :
  forall (s0 : state) (b : best) (s : state),
  top1_accuracies (heap s0) = [] ->
  epoch_loop a tl vl (py_range (Z.of_nat k)) (mkBest 0 0 0) s0 = Ok (b, s) ->
  List.length (top1_accuracies (heap s)) = k /\
  Forall (fun x => (x <= top_acc b)%Q) (top1_accuracies (heap s)) /\
  (0 <= top_acc b)%Q /\
  (top_acc b = 0%Q \/ In (top_acc b) (top1_accuracies (heap s))).
Proof.
  induction k as [|k IH]; intros s0 b s H0 H.
  - cbn in H. minv H. rewrite H0. cbn.
    repeat split; [constructor|apply Qle_refl|left; reflexivity].
  - rewrite py_range_succ, epoch_loop_app in H.
    apply bind_Ok in H. destruct H as (b0 & s1 & Hk & Hlast).
    specialize (IH _ _ _ H0 Hk). destruct IH as (I1 & I2 & I3 & I4).
    cbn [epoch_loop] in Hlast. minv Hlast.
    match goal with
    | Hr : run_epoch _ _ _ _ _ _ = Ok _ |- _ => rename Hr into HR
    end.
    apply run_epoch_inv in HR.
    destruct HR as (acc & tm & vm & top5 & e1 & Hh & _ & Hcase).
    rewrite Hh. cbn [top1_accuracies push assign deref].
    rewrite length_app, I1. cbn [List.length].
    split; [lia|].
    destruct Hcase as [(Hlt & _ & _ & Hta & _)|(Hle & _ & _ & Hta & _)];
      rewrite Hta.
    + repeat split.
      * apply Forall_app. split.
        -- eapply Forall_impl; [|exact I2]. cbn. intros x Hx.
           eapply Qle_trans; [exact Hx|]. apply Qlt_le_weak. exact Hlt.
        -- repeat constructor. apply Qle_refl.
      * eapply Qle_trans; [exact I3|]. apply Qlt_le_weak. exact Hlt.
      * right. apply in_or_app. right. left. reflexivity.
    + repeat split.
      * apply Forall_app. split; [exact I2|]. repeat constructor. exact Hle.
      * exact I3.
      * destruct I4 as [I4|I4]; [left; exact I4|].
        right. apply in_or_app. left. exact I4.
Qed.

Lemma py_range_split (n k : nat) :
  (k < n)%nat ->
  py_range (Z.of_nat n) =
  (py_range (Z.of_nat k) ++
   Z.of_nat k :: map Z.of_nat (seq (S k) (n - S k)))%list.
Proof.
  intro Hk. unfold py_range. rewrite !Nat2Z.id.
  replace n with (k + S (n - S k))%nat at 1 by lia.
  rewrite seq_app, map_app. reflexivity.
Qed.

(** "The accuracy of the epoch strictly exceeds 0 and the accuracy of
    every earlier epoch of the run." *)
Definition exceeds_all (acc : Q) (earlier : list Q) : Prop :=
  (0 < acc)%Q /\ Forall (fun x => (x < acc)%Q) earlier.

Lemma exceeds_all_iff (acc ta : Q) (earlier : list Q) :
  Forall (fun x => (x <= ta)%Q) earlier ->
  (0 <= ta)%Q ->
  ta = 0%Q \/ In ta earlier ->
  ((ta < acc)%Q <-> exceeds_all acc earlier).
Proof.
  intros Hall H0 Hin. unfold exceeds_all. split.
  - intro Hlt. split.
    + eapply Qle_lt_trans; eassumption.
    + eapply Forall_impl; [|exact Hall]. cbn. intros x Hx.
      eapply Qle_lt_trans; eassumption.
  - intros [Hpos Hfa]. destruct Hin as [->|Hin]; [exact Hpos|].
    rewrite Forall_forall in Hfa. apply Hfa. exact Hin.
Qed.

(** The k-th epoch (counted from 0) of a run of [n] epochs. *)
Lemma epoch_of_run (a : args) (tl vl : list batch) (n k : nat)
    (s0 : state) (bst : best) (sn : state) :
  top1_accuracies (heap s0) = [] ->
  epoch_loop a tl vl (py_range (Z.of_nat n)) (mkBest 0 0 0) s0
  = Ok (bst, sn) ->
  (k < n)%nat ->
  exists (b0 : best) (sk : state) (b1 : best) (s1 : state) (acc : Q)
         (evs : list event),
    epoch_loop a tl vl (py_range (Z.of_nat k)) (mkBest 0 0 0) s0
    = Ok (b0, sk) /\
    run_epoch a tl vl (Z.of_nat k) b0 sk = Ok (b1, s1) /\
    trace s1 = (trace sk ++ evs)%list /\
    nth_error (top1_accuracies (heap sn)) k = Some acc /\
    firstn k (top1_accuracies (heap sn)) = top1_accuracies (heap sk) /\
    (exceeds_all acc (top1_accuracies (heap sk)) /\
     saves evs = [model s1] /\
     checkpoint s1 = Some (model s1) /\
     top_acc b1 = acc /\ best_epoch b1 = Z.of_nat k + 1
     \/
     ~ exceeds_all acc (top1_accuracies (heap sk)) /\
     saves evs = [] /\
     checkpoint s1 = checkpoint sk /\
     top_acc b1 = top_acc b0 /\ best_epoch b1 = best_epoch b0).
Proof.
  intros H0 H Hk.
  rewrite (py_range_split Hk), epoch_loop_app in H.
  apply bind_Ok in H. destruct H as (b0 & sk & Hpre & Hrest).
  cbn [epoch_loop] in Hrest.
  apply bind_Ok in Hrest. destruct Hrest as (b1 & s1 & Hrun & Hrest).
  pose proof Hpre as Hinv. apply best_so_far in Hinv; [|exact H0].
  destruct Hinv as (I1 & I2 & I3 & I4).
  pose proof Hrun as Hrun'. apply run_epoch_inv in Hrun'.
  destruct Hrun' as (acc & tm & vm & top5 & evs & Hh & Ht & Hcase).
  apply epoch_loop_heap in Hrest.
  destruct Hrest as (tls & vls & t1s & t5s & _ & _ & _ & _ & Hhn).
  assert (Htop : top1_accuracies (heap sn) =
                 (top1_accuracies (heap sk) ++ acc :: t1s)%list).
  { rewrite Hhn, Hh. cbn. rewrite <- app_assoc. reflexivity. }
  exists b0, sk, b1, s1, acc, evs.
  split; [exact Hpre|]. split; [exact Hrun|]. split; [exact Ht|].
  split.
  { rewrite Htop, nth_error_app2 by lia.
    rewrite I1, Nat.sub_diag. reflexivity. }
  split.
  { rewrite Htop, firstn_app, I1, Nat.sub_diag, firstn_O, app_nil_r.
    rewrite <- I1. apply firstn_all. }
  pose proof (exceeds_all_iff acc I2 I3 I4) as Hiff.
  destruct Hcase as [(Hlt & Hrestc)|(Hle & Hrestc)].
  - left. split; [apply Hiff; exact Hlt|exact Hrestc].
  - right. split; [|exact Hrestc].
    intro Hex. apply Hiff in Hex. exact (Qlt_not_le _ _ Hex Hle).
Qed.

(** *** C1 *)

(** C1 (as the code has it). In every run that completes, with [accs]
    the validation top-1 accuracies of its epochs in order: during the
    epoch of index k (the (k+1)-th), a checkpoint is written if and only
    if the accuracy of that epoch is strictly above 0 and strictly above
    the accuracy of every earlier epoch of the run ([top_acc] starts at
    0, so an accuracy of 0 never writes one, and a tie never does).
    When it is written, the file holds the parameters of that moment,
    [top_acc] becomes that accuracy and [best_epoch] becomes k+1;
    otherwise the file, [top_acc] and [best_epoch] stay as they were.
    The pass over the test loader, after the last epoch, writes no
    checkpoint and happens after [top_acc] and [best_epoch] got their
    final values.  For accuracies 70, 65, 75 exactly two checkpoints are
    written (by the above: in epochs 1 and 3) and [best_epoch] ends
    at 3. *)
Theorem checkpoint_selection (a : args)
    (train_loader val_loader test_loader : list batch) (s : state)
    (bst : best) (s' : state) :
  0 <= no_epochs a ->
  train_main_locals a train_loader val_loader test_loader s = Ok (bst, s') ->
  exists (accs : list Q) (test_acc : Q) (sn : state)
         (evs_test : list event),
    top1_accuracies (heap s') = (accs ++ [test_acc])%list /\
    List.length accs = Z.to_nat (no_epochs a) /\
    epoch_loop a train_loader val_loader (py_range (no_epochs a))
      (mkBest 0 0 0) (run_start s) = Ok (bst, sn) /\
    validate a test_loader Top1Accuracies Top5Accuracies ValidateDefault sn
    = Ok (test_acc, s') /\
    trace s' = (trace sn ++ evs_test)%list /\
    saves evs_test = [] /\
    checkpoint s' = checkpoint sn /\
    (forall (k : nat) (acc : Q),
       nth_error accs k = Some acc ->
       exists (b0 : best) (sk : state) (b1 : best) (s1 : state)
              (evs : list event),
         epoch_loop a train_loader val_loader (py_range (Z.of_nat k))
           (mkBest 0 0 0) (run_start s) = Ok (b0, sk) /\
         run_epoch a train_loader val_loader (Z.of_nat k) b0 sk
         = Ok (b1, s1) /\
         trace s1 = (trace sk ++ evs)%list /\
         (exceeds_all acc (firstn k accs) /\
          saves evs = [model s1] /\
          checkpoint s1 = Some (model s1) /\
          top_acc b1 = acc /\ best_epoch b1 = Z.of_nat k + 1
          \/
          ~ exceeds_all acc (firstn k accs) /\
          saves evs = [] /\
          checkpoint s1 = checkpoint sk /\
          top_acc b1 = top_acc b0 /\ best_epoch b1 = best_epoch b0)) /\
    (Forall2 Qeq accs [70 # 1; 65 # 1; 75 # 1] ->
     best_epoch bst = 3 /\ (top_acc bst == 75 # 1)%Q /\
     exists evs,
       trace sn = (trace s ++ evs)%list /\ List.length (saves evs) = 2%nat).
Proof.
  intros Hn H. unfold train_main_locals in H. minv H.
  match goal with
  | He : epoch_loop _ _ _ _ _ _ = Ok (?b, ?x) |- _ =>
      rename He into HE; rename x into sn; rename b into bst
  end.
  match goal with
  | Hv : validate _ _ _ _ _ _ = Ok (?x, _) |- _ =>
      rename Hv into HV; set (test_acc := x) in *
  end.
  change (epoch_loop a train_loader val_loader (py_range (no_epochs a))
            (mkBest 0 0 0) (run_start s) = Ok (bst, sn)) in HE.
  assert (H0 : top1_accuracies (heap (run_start s)) = []) by reflexivity.
  pose proof HE as HS. apply epoch_loop_selector in HS.
  destruct HS as (accs & evs & A1 & A2 & A3 & A4 & A5).
  rewrite H0 in A1. cbn [app] in A1.
  rewrite py_range_length in A2.
  pose proof HV as HV'. apply validate_no_save in HV'.
  destruct HV' as (top5 & m & evt & Vh & Vc & _ & Vt & Vs).
  exists accs, test_acc, sn, evt.
  split. { rewrite Vh. cbn. rewrite A1. reflexivity. }
  split; [exact A2|]. split; [exact HE|]. split; [exact HV|].
  split; [exact Vt|]. split; [exact Vs|]. split; [exact Vc|].
  split.
  - intros k acc Hk.
    assert (Hlt : (k < Z.to_nat (no_epochs a))%nat).
    { rewrite <- A2. apply nth_error_Some. congruence. }
    pose proof HE as HE'. rewrite <- (Z2Nat.id (no_epochs a) Hn) in HE'.
    eapply epoch_of_run in HE'; [|exact H0|exact Hlt].
    destruct HE'
      as (b0 & sk & b1 & sk1 & acc' & ek & P1 & P2 & P3 & P4 & P5 & P6).
    rewrite A1 in P4, P5. rewrite P4 in Hk. injection Hk as Hk. subst acc'.
    rewrite <- P5 in P6.
    exists b0, sk, b1, sk1, ek.
    split; [exact P1|]. split; [exact P2|]. split; [exact P3|exact P6].
  - intro Hsc.
    inversion Hsc as [|x1 q1 l1 r1 E1 Hsc1]; subst.
    inversion Hsc1 as [|x2 q2 l2 r2 E2 Hsc2]; subst.
    inversion Hsc2 as [|x3 q3 l3 r3 E3 Hsc3]; subst.
    inversion Hsc3; subst.
    match goal with
    | Hx : [_; _; _] = _ |- _ => rewrite <- Hx in A2, A4, A5
    end.
    cbn [List.length] in A2.
    assert (En : no_epochs a = 3) by lia.
    rewrite En in A4, A5. cbn [best_epoch top_acc] in A4, A5.
    assert (G1 : Qgtb x1 0 = true).
    { apply Qgtb_lt. rewrite E1. reflexivity. }
    assert (G2 : Qgtb x2 x1 = false).
    { apply Qgtb_le. rewrite E1, E2. discriminate. }
    assert (G3 : Qgtb x3 x1 = true).
    { apply Qgtb_lt. rewrite E1, E3. reflexivity. }
    change (py_range 3) with [0; 1; 2] in A4, A5.
    cbn [selector] in A4, A5. rewrite G1 in A4, A5.
    cbn [selector fst snd] in A4, A5. rewrite G2 in A4, A5.
    cbn [selector fst snd] in A4, A5. rewrite G3 in A4, A5.
    cbn [selector fst snd List.length] in A4, A5.
    inj_subst A5.
    split; [assumption|]. split; [exact E3|].
    exists evs. split; [exact A3|exact A4].
Qed.
End Engine.

(** * [inference.py]: the text prompt of multimodal inference *)

Local Open Scope Z_scope.

(** The two attributes of the mask scheduler that
    [return_prepared_inputs] reads. *)
Record mask_scheduler_attrs : Type := mkAttrs {
  vocab_size : Z;
  special_tokens : list Z
}.

(** A Python index into a sequence of length [len]: a negative index
    counts from the end; out of range raises [IndexError]. *)
Definition py_index (len i : Z) : result nat :=
  let j := if i <? 0 then i + len else i in
  if (0 <=? j) && (j <? len) then Ok (Z.to_nat j) else Raise IndexError.

(** [l[i]] *)
Definition list_index (l : list Z) (i : Z) : result Z :=
  match py_index (Z.of_nat (List.length l)) i with
  | Raise e => Raise e
  | Ok j =>
      match nth_error l j with
      | Some v => Ok v
      | None => Raise IndexError
      end
  end.

Fixpoint list_set {A} (j : nat) (v : A) (l : list A) : list A :=
  match l, j with
  | [], _ => []
  | _ :: l', O => v :: l'
  | x :: l', S j' => x :: list_set j' v l'
  end.

(** The values an entry of an [int64] tensor can hold. *)
Definition int64 (v : Z) : bool := (- 2 ^ 63 <=? v) && (v <? 2 ^ 63).

(** [t[:, i] = v] on an [int64] tensor: torch refuses a Python integer
    that does not fit the element type. *)
Definition set_column (i : Z) (v : Z) (t : tensor2) : result tensor2 :=
  if int64 v then
    sequence
      (map (fun row =>
              match py_index (Z.of_nat (List.length row)) i with
              | Raise e => Raise e
              | Ok j => Ok (list_set j v row)
              end) t)
  else Raise RuntimeError.

Section Inference.

(** The random generator of torch and the image pipeline are
    collaborators.  [next_raw] is one draw of the generator: an integer
    and the generator that follows.  [torch.randint] (on the CPU, where
    line 131 creates the prompt before moving it) makes one draw per
    entry and reduces it modulo the width of the range. *)
Variables Gen Image : Type.
Variable next_raw : Gen -> Z * Gen.

(** Line 125, [transform(Image.open(file_path)).to(device).unsqueeze(0)]:
    the image, or the exception that opening or transforming the file
    raises. *)
Variable load_image : string -> result Image.

(** Whether the machine has the memory for an [int64] tensor of so many
    entries. *)
Variable can_allocate : Z -> bool.

(** [torch.ones((1, cols), dtype=torch.int64)] *)
Definition torch_ones (cols : Z) : result tensor2 :=
  if cols <? 0 then Raise RuntimeError
  else if can_allocate cols then Ok [repeat 1 (Z.to_nat cols)]
  else Raise RuntimeError.

(** The next [n] draws of the generator, and the generator after
    them. *)
Fixpoint draws (g : Gen) (n : nat) : list Z :=
  match n with
  | O => []
  | S n' => fst (next_raw g) :: draws (snd (next_raw g)) n'
  end.

Fixpoint advance (g : Gen) (n : nat) : Gen :=
  match n with
  | O => g
  | S n' => advance (snd (next_raw g)) n'
  end.

Fixpoint randint_row (g : Gen) (low high : Z) (n : nat) : list Z * Gen :=
  match n with
  | O => ([], g)
  | S n' =>
      let (r, g1) := next_raw g in
      let (row, g2) := randint_row g1 low high n' in
      ((low + r mod (high - low)) :: row, g2)
  end.

(** [torch.randint(low, high, (1, cols))]: the bounds are [int64]
    values. *)
Definition torch_randint (g : Gen) (low high cols : Z)
    : result (tensor2 * Gen) :=
  if negb (int64 low && int64 high) then Raise RuntimeError
  else if high <=? low then Raise RuntimeError
  else if cols <? 0 then Raise RuntimeError
  else if negb (can_allocate cols) then Raise RuntimeError
  else let (row, g') := randint_row g low high (Z.to_nat cols) in
       Ok ([row], g').

(** Of [m] consecutive raw values [0, 1, ..., m-1], how many are
    reduced to the id [v] by a range of width [width]. *)
Definition residue_count (width v : Z) (m : nat) : nat :=
  List.length (filter (fun r => r mod width =? v) (map Z.of_nat (seq 0 m))).

(** Lines 128-131: the general fill. *)
Definition general_fill (a : args) (ms : mask_scheduler_attrs) (g : Gen)
    : result (tensor2 * Gen) :=
  if String.eqb (masking_behavior a) "constant" then
    match torch_ones (max_text_seq_len a) with
    | Ok t => Ok (t, g)
    | Raise e => Raise e
    end
  else torch_randint g 0 (vocab_size ms - 1) (max_text_seq_len a).

(** [return_prepared_inputs(file_path, args, device, data_set,
    mask_scheduler)]: the image alone, or the image and the text
    prompt. *)
Definition return_prepared_inputs (file_path : string) (a : args)
    (ms : mask_scheduler_attrs) (g : Gen)
    : result (Image * option tensor2 * Gen) :=
  match load_image file_path with
  | Raise e => Raise e
  | Ok image =>
      if String.eqb (inference_mode a) "multimodal" then
        match general_fill a ms g with
        | Raise e => Raise e
        | Ok (text_prompt, g') =>
            match list_index (special_tokens ms) 1 with
            | Raise e => Raise e
            | Ok start_id =>
                match set_column 0 start_id text_prompt with
                | Raise e => Raise e
                | Ok text_prompt1 =>
                    match list_index (special_tokens ms) 2 with
                    | Raise e => Raise e
                    | Ok end_id =>
                        match set_column (-1) end_id text_prompt1 with
                        | Raise e => Raise e
                        | Ok text_prompt2 =>
                            Ok (image, Some text_prompt2, g')
                        end
                    end
                end
            end
        end
      else Ok (image, None, g)
  end.

(** *** Facts *)

Lemma list_set_length {A} (j : nat) (v : A) (l : list A) :
  List.length (list_set j v l) = List.length l.
Proof.
  revert j. induction l as [|x l IH]; intros [|j]; cbn; auto.
Qed.

Lemma list_set_same {A} (j : nat) (v : A) (l : list A) :
  (j < List.length l)%nat -> nth_error (list_set j v l) j = Some v.
Proof.
  revert j. induction l as [|x l IH]; intros [|j] H; cbn in *;
    try lia; [reflexivity|apply IH; lia].
Qed.

Lemma list_set_other {A} (j k : nat) (v : A) (l : list A) :
  j <> k -> nth_error (list_set j v l) k = nth_error l k.
Proof.
  revert j k. induction l as [|x l IH]; intros [|j] [|k] H; cbn;
    try reflexivity; try congruence.
  apply IH. congruence.
Qed.

Lemma randint_row_spec (g : Gen) (low high : Z) (n : nat) :
  low < high ->
  List.length (fst (randint_row g low high n)) = n /\
  Forall (fun x => low <= x < high) (fst (randint_row g low high n)).
Proof.
  intro Hlh. revert g. induction n as [|n IH]; intro g; cbn [randint_row].
  - split; [reflexivity|constructor].
  - destruct (next_raw g) as [r g1].
    specialize (IH g1). destruct (randint_row g1 low high n) as [row g2].
    cbn [fst] in *. destruct IH as [IH1 IH2]. split.
    + cbn. rewrite IH1. reflexivity.
    + constructor; [|exact IH2].
      pose proof (Z.mod_pos_bound r (high - low)). lia.
Qed.

Lemma list_index_Ok (l : list Z) (i : nat) (v : Z) :
  nth_error l i = Some v -> list_index l (Z.of_nat i) = Ok v.
Proof.
  intro H. unfold list_index, py_index.
  assert (Hlt : (i < List.length l)%nat)
    by (apply nth_error_Some; congruence).
  destruct (Z.ltb_spec (Z.of_nat i) 0) as [?|_]; [lia|].
  destruct (Z.leb_spec 0 (Z.of_nat i)) as [_|?]; [|lia].
  destruct (Z.ltb_spec (Z.of_nat i) (Z.of_nat (List.length l))) as [_|?];
    [|lia].
  cbn [andb]. rewrite Nat2Z.id, H. reflexivity.
Qed.

Lemma set_column_row (i : Z) (v : Z) (row : list Z) (j : nat) :
  int64 v = true ->
  py_index (Z.of_nat (List.length row)) i = Ok j ->
  set_column i v [row] = Ok [list_set j v row].
Proof.
  intros Hv H. unfold set_column. rewrite Hv. cbn. rewrite H. reflexivity.
Qed.

Lemma randint_row_draws (g : Gen) (low high : Z) (n : nat) :
  randint_row g low high n =
  (map (fun r => low + r mod (high - low)) (draws g n), advance g n).
Proof.
  revert g. induction n as [|n IH]; intro g; cbn [randint_row draws advance map].
  - reflexivity.
  - destruct (next_raw g) as [r g1]. cbn [fst snd]. rewrite IH. reflexivity.
Qed.

Lemma draws_length (g : Gen) (n : nat) : List.length (draws g n) = n.
Proof.
  revert g. induction n as [|n IH]; intro g; cbn; [reflexivity|].
  rewrite IH. reflexivity.
Qed.

(** Over [m] consecutive raw values every id of the range is hit the
    same number of times, up to one: [m / width] times, and once more
    for the ids below [m mod width]. *)
Lemma residue_count_closed (width v : Z) (m : nat) :
  0 <= v < width ->
  Z.of_nat (residue_count width v m) =
  Z.of_nat m / width + (if v <? Z.of_nat m mod width then 1 else 0).
Proof.
  intro Hv. unfold residue_count. induction m as [|m IH].
  - cbn [seq map filter List.length]. rewrite Zdiv_0_l, Zmod_0_l.
    destruct (Z.ltb_spec v 0); lia.
  - rewrite seq_S, map_app, filter_app, length_app, Nat2Z.inj_add, IH.
    cbn [Nat.add map filter].
    pose proof (Z.div_mod (Z.of_nat m) width ltac:(lia)) as Hdm.
    pose proof (Z.mod_pos_bound (Z.of_nat m) width ltac:(lia)) as Hb.
    set (q := Z.of_nat m / width) in *.
    set (r := Z.of_nat m mod width) in *.
    replace (Z.of_nat (S m)) with (Z.of_nat m + 1) by lia.
    destruct (Z_lt_le_dec (r + 1) width) as [Hr|Hr].
    + assert (E1 : (Z.of_nat m + 1) / width = q)
        by (symmetry; apply Z.div_unique with (r := r + 1); lia).
      assert (E2 : (Z.of_nat m + 1) mod width = r + 1)
        by (symmetry; apply Z.mod_unique with (q := q); lia).
      rewrite E1, E2.
      destruct (Z.eqb_spec r v), (Z.ltb_spec v r), (Z.ltb_spec v (r + 1));
        cbn [List.length]; lia.
    + assert (E1 : (Z.of_nat m + 1) / width = q + 1)
        by (symmetry; apply Z.div_unique with (r := 0); lia).
      assert (E2 : (Z.of_nat m + 1) mod width = 0)
        by (symmetry; apply Z.mod_unique with (q := q + 1); lia).
      rewrite E1, E2.
      destruct (Z.eqb_spec r v), (Z.ltb_spec v r), (Z.ltb_spec v 0);
        cbn [List.length]; lia.
Qed.

Lemma py_index_first (len : Z) : 1 <= len -> py_index len 0 = Ok 0%nat.
Proof.
  intro H. unfold py_index. cbn.
  destruct (Z.ltb_spec 0 len); [reflexivity|lia].
Qed.

Lemma py_index_last (len : Z) :
  1 <= len -> py_index len (-1) = Ok (Z.to_nat (len - 1)).
Proof.
  intro H. unfold py_index. cbn [Z.ltb Z.compare].
  destruct (Z.leb_spec 0 (-1 + len)); [|lia].
  destruct (Z.ltb_spec (-1 + len) len); [|lia].
  cbn [andb]. do 2 f_equal. lia.
Qed.

(** *** C9 *)


End Inference.

(** * A concrete environment

    The theorems above hold for every network, optimizer and scheduler.
    To run the embedding, a small environment is fixed here: the
    parameters of the network are the number of optimizer steps applied
    so far, an image batch carries the logits the network gives it after
    that many steps, losses are rationals. *)

Module Demo.

Local Open Scope Z_scope.

Definition Model := Z.
Definition Optimizer := Q.
Definition LrScheduler := Z.
Definition Torch := Z.
Definition Images := list logits.
Definition TextLogits := unit.
Definition Scalar := Q.

Definition no_mask (t : Torch) (g : Z) : option tensor2 * Torch := (None, t).

Definition some_mask (t : Torch) (g : Z) : option tensor2 * Torch :=
  (Some [[0; 0; 0; 1; 0]; [1; 0; 1; 0; 0]], t + 1).

Definition model_call (tr : bool) (m : Model) (t : Torch) (im : Images)
    (text : option (tensor2 * option tensor2))
    : model_out TextLogits Scalar * Torch :=
  (mkOut (nth (Z.to_nat m) im []) tt (1 # 2), t).

Definition criterion (o : logits) (l : list Z) : Scalar :=
  (inject_Z (Z.of_nat (List.length o)) / 4)%Q.

Definition criterion_text (o : TextLogits) (t : tensor2) : Scalar := 3 # 4.

Definition backward_step (m : Model) (o : Optimizer) (loss : Scalar)
    : Model * Optimizer := (m + 1, o).

Definition lr_scheduler_step (sc : LrScheduler) (o : Optimizer)
    : LrScheduler * Optimizer := (sc + 1, (o * (9 # 10))%Q).

Definition current_lr (o : Optimizer) : Q := o.
Definition update_lr (o : Optimizer) : Optimizer := (o * (1 # 10))%Q.
Definition max_memory_reserved (t : Torch) : Q := inject_Z (2 ^ 30).

Definition st := state Model Optimizer LrScheduler Torch.

Definition start (sch : option LrScheduler) : st :=
  mkState 0 0 true (1 # 100) sch 0 (mkLists [] [] [] [] []) None [].

(** After one optimizer step. *)
Definition after_one_step : st :=
  mkState 1 1 true (1 # 100) None 0 (mkLists [] [] [] [] []) None [].

Definition cfg (mm ms ex dbg : bool) (n : Z) : args :=
  mkArgs mm ms ex (1 # 2) (2 # 1) 4 1 dbg n 2 "run" "out" "multimodal"
    "constant".

(** Scores of one example over six classes, for the label 0: best
    score, second best score, last. *)
Definition first_place : list Q := [6 # 1; 5 # 1; 4 # 1; 3 # 1; 2 # 1; 1 # 1].
Definition second_place : list Q := [5 # 1; 6 # 1; 4 # 1; 3 # 1; 2 # 1; 1 # 1].
Definition last_place : list Q := [1 # 1; 6 # 1; 5 # 1; 4 # 1; 3 # 1; 2 # 1].

(** Twenty examples, [k] of them classified correctly. *)
Definition twenty (k : nat) : logits :=
  repeat first_place k ++ repeat second_place (20 - k).

Definition labels20 : list Z := repeat 0 20.

(** The validation batch: what the network says after 0, 1, 2, 3
    optimizer steps. *)
Definition val_images : Images := [twenty 0; twenty 14; twenty 13; twenty 15].

Definition train_loader : list (batch Images) :=
  [Batch2 val_images labels20].
Definition val_loader : list (batch Images) :=
  [Batch2 val_images labels20].

(** A thousand examples: 800 correct for k = 1, 150 more for k = 5. *)
Definition thousand : logits :=
  repeat first_place 800 ++ repeat second_place 150 ++ repeat last_place 50.

Definition big_loader : list (batch Images) :=
  [Batch2 [thousand] (repeat 0 1000)].

Definition captions2 : tensor2 := [[101; 7; 8; 102]; [101; 9; 102; 0]].

Definition text_loader : list (batch Images) :=
  [Batch3 [twenty 20] labels20 captions2; Batch3 [twenty 20] labels20 captions2].

(** Abbreviations for the functions of the source in this environment. *)
Abbreviation run_validate a loader :=
  (validate no_mask model_call criterion criterion_text Qplus Qminus Qmult
     (fun q => q) Qmult Qpower a loader Top1Accuracies Top5Accuracies ValLossAvg).

Abbreviation run_train_epoch mask a epoch loader :=
  (train_one_epoch mask model_call criterion criterion_text Qplus Qminus
     Qmult (fun q => q) Qmult Qpower backward_step lr_scheduler_step current_lr update_lr
     a epoch loader TrainLossAvg).

Abbreviation run_batch mask a b :=
  (batch_forward_loss mask model_call criterion criterion_text Qplus Qminus
     Qmult Qmult Qpower a b).

Abbreviation run_main a :=
  (train_main_locals no_mask model_call criterion criterion_text Qplus
     Qminus Qmult (fun q => q) Qmult Qpower backward_step lr_scheduler_step current_lr
     update_lr max_memory_reserved a train_loader val_loader val_loader).

Abbreviation run_train_main a :=
  (train_main no_mask model_call criterion criterion_text Qplus
     Qminus Qmult (fun q => q) Qmult Qpower backward_step lr_scheduler_step current_lr
     update_lr max_memory_reserved a train_loader val_loader val_loader).

Abbreviation run_epoch_loop a epochs :=
  (epoch_loop no_mask model_call criterion criterion_text Qplus
     Qminus Qmult (fun q => q) Qmult Qpower backward_step lr_scheduler_step current_lr
     update_lr max_memory_reserved a train_loader val_loader epochs).

Abbreviation run_one_epoch a epoch :=
  (run_epoch no_mask model_call criterion criterion_text Qplus
     Qminus Qmult (fun q => q) Qmult Qpower backward_step lr_scheduler_step current_lr
     update_lr max_memory_reserved a train_loader val_loader epoch).

Abbreviation run_test a :=
  (validate no_mask model_call criterion criterion_text Qplus Qminus Qmult
     (fun q => q) Qmult Qpower a val_loader Top1Accuracies Top5Accuracies ValidateDefault).

Abbreviation run_train_loop a epoch spe i loader losses :=
  (train_loop no_mask model_call criterion criterion_text Qplus Qminus
     Qmult (fun q => q) Qmult Qpower backward_step lr_scheduler_step current_lr a epoch
     spe i loader losses).

Abbreviation run_validate_locals a spe i loader :=
  (validate_locals no_mask model_call criterion criterion_text Qplus Qminus
     Qmult (fun q => q) Qmult Qpower a spe i loader).

Abbreviation run_train_locals a epoch spe i loader :=
  (train_locals no_mask model_call criterion criterion_text Qplus Qminus
     Qmult (fun q => q) Qmult Qpower backward_step lr_scheduler_step
     current_lr a epoch spe i loader).

(** A loader of five batches, and a network that never gets an example
    right. *)
Definition five_loader : list (batch Images) :=
  repeat (Batch2 val_images labels20) 5.

Definition hopeless_loader : list (batch Images) :=
  [Batch2 [twenty 0; twenty 0] labels20].

Abbreviation run_hopeless a :=
  (train_main_locals no_mask model_call criterion criterion_text Qplus
     Qminus Qmult (fun q => q) Qmult Qpower backward_step lr_scheduler_step current_lr
     update_lr max_memory_reserved a train_loader hopeless_loader
     hopeless_loader).

(** Inference: a linear congruential generator, BERT's vocabulary size
    and special tokens, and a prompt of four positions filled at
    random. *)
Definition next_raw (g : Z) : Z * Z :=
  let g' := (g * 1103515245 + 12345) mod 2 ^ 31 in (g', g').

Definition bert : mask_scheduler_attrs := mkAttrs 30522 [0; 101; 102].

Definition infer_cfg (behavior : string) (len : Z) : args :=
  mkArgs true true false (1 # 2) (2 # 1) len 1 false 3 2 "run" "out"
    "multimodal" behavior.

(** Every file loads (an image is held as its path), and there is
    memory for a million entries. *)
Definition load_image (path : string) : result string := Ok path.
Definition can_allocate (n : Z) : bool := n <=? 1000000.

Abbreviation prepare a g :=
  (return_prepared_inputs next_raw load_image can_allocate "img.png" a
     bert g).

(** ** The theorems at work *)

Lemma validate_frame_witness :
  exists acc s',
    run_validate (cfg false false false false 3) val_loader (start (Some 0))
    = Ok (acc, s') /\
    global_step s' = global_step (start (Some 0)) /\
    optimizer s' = optimizer (start (Some 0)) /\
    lr_scheduler s' = lr_scheduler (start (Some 0)).
Proof.
  eexists. eexists.
  match goal with
  | |- ?L = ?R /\ _ => assert (Hrun : L = R) by (vm_compute; reflexivity)
  end.
  split; [exact Hrun|].
  destruct (validate_frame no_mask model_call criterion criterion_text
              Qplus Qminus Qmult (fun q => q) Qmult Qpower current_lr
              (cfg false false false false 3) val_loader
              Top1Accuracies Top5Accuracies ValLossAvg (start (Some 0))
              Hrun) as (H1 & H2 & _ & H3 & _).
  repeat split; assumption.
Defined.

Definition masks2 : tensor2 := [[0; 0; 0; 1; 0]; [1; 0; 1; 0; 0]].


Lemma loss_composition_witness :
  let a := cfg true true true false 3 in
  let b := Batch3 [twenty 20] labels20 captions2 in
  let s := start None in
  exists loc s',
    run_batch some_mask a b s = Ok (loc, s') /\
    exists (images : Images) (captions : option tensor2),
      unpack_batch a b = Ok (images, l_labels loc, captions) /\
      let masks := fst (some_mask (torch s) (global_step s)) in
      let o :=
        fst (model_call (training s) (model s)
               (snd (some_mask (torch s) (global_step s))) images
               (option_map (fun c => (c, masks)) captions)) in
      l_masks loc = masks /\
      l_outputs loc = out_logits o /\
      build_text_targets a captions masks = Ok (l_labels_text loc) /\
      (masks <> None -> multimodal a = true /\ mask_schedule a = true) /\
      exists base : Scalar,
        match masks with
        | None => base = criterion (out_logits o) (l_labels loc)
        | Some mk =>
            exists cap lt,
              captions = Some cap /\
              text_targets (max_text_seq_len a) cap mk = Ok lt /\
              l_labels_text loc = Some lt /\
              base = Qplus (criterion (out_logits o) (l_labels loc))
                       (criterion_text (out_text o) lt)
        end /\
        l_loss loc =
          (if exclusion_loss a
           then Qminus base
                  (Qmult (Qmult (exclusion_weight a)
                            (Qpower (temperature a) 2))
                     (out_exclusion o))
           else base) /\
        (exclusion_loss a = false -> l_loss loc = base).
Proof.
  cbv zeta. eexists. eexists.
  match goal with
  | |- ?L = ?R /\ _ => assert (Hrun : L = R) by (vm_compute; reflexivity)
  end.
  split; [exact Hrun|].
  exact (loss_composition some_mask model_call criterion criterion_text
           Qplus Qminus Qmult Qmult Qpower (cfg true true true false 3)
           (Batch3 [twenty 20] labels20 captions2) (start None) Hrun).
Defined.

Lemma train_one_epoch_counter_witness :
  let a := cfg true true false false 3 in
  exists s',
    run_train_epoch some_mask a 0 text_loader (start (Some 0))
    = Ok (tt, s') /\
    exists (k : nat) (evs : list (event Model)),
      trace s' = trace (start (Some 0)) ++ evs /\
      (1 <= k <= List.length text_loader)%nat /\
      (debugging a = false -> k = List.length text_loader) /\
      global_step s' = global_step (start (Some 0)) + Z.of_nat k /\
      List.length (optimizer_steps evs) = k /\
      mask_queries evs = steps_from (global_step (start (Some 0))) k /\
      lr_step_counters evs =
        (if is_some (lr_scheduler (start (Some 0)))
         then steps_from (global_step (start (Some 0))) k else []).
Proof.
  cbv zeta. eexists.
  match goal with
  | |- ?L = ?R /\ _ => assert (Hrun : L = R) by (vm_compute; reflexivity)
  end.
  split; [exact Hrun|].
  exact (train_one_epoch_counter some_mask model_call criterion
           criterion_text Qplus Qminus Qmult (fun q => q) Qmult Qpower backward_step
           lr_scheduler_step current_lr update_lr
           (cfg true true false false 3) 0 text_loader TrainLossAvg
           (start (Some 0)) Hrun).
Defined.

(** The first two batches of a run query the mask scheduler, and step
    the learning-rate scheduler, at the counter values 0 and 1: the
    N-th batch sees N-1, not N. *)
Lemma first_batches_see_zero_and_one :
  exists s',
    run_train_epoch some_mask (cfg true true false false 3) 0 text_loader
      (start (Some 0)) = Ok (tt, s') /\
    global_step s' = 2 /\
    mask_queries (trace s') = [0; 1] /\
    lr_step_counters (trace s') = [0; 1] /\
    mask_queries (trace s') <> [1; 2].
Proof.
  eexists. split; [vm_compute; reflexivity|].
  vm_compute. repeat split. discriminate.
Qed.

Lemma validate_reports_percentages_witness :
  let a := cfg false false false false 3 in
  exists acc s',
    run_validate a big_loader (start None) = Ok (acc, s') /\
    exists (ran : list (batch_locals Scalar)) (s1 : st) (top5 : Q),
      run_validate_locals a (Z.of_nat (List.length big_loader)) 0
        (firstn (List.length ran) big_loader)
        (set_training false (start None))
      = Ok (ran, s1) /\
      (List.length ran <= List.length big_loader)%nat /\
      (debugging a = false -> List.length ran = List.length big_loader) /\
      map (@l_labels Scalar) ran =
        map (@batch_labels Images) (firstn (List.length ran) big_loader) /\
      0 < examples ran /\
      percentage (hits_1 ran) (examples ran) = Ok acc /\
      percentage (hits_5 ran) (examples ran) = Ok top5 /\
      acc = round_double
              (inject_Z (100 * hits_1 ran) / inject_Z (examples ran)) /\
      top5 = round_double
               (inject_Z (100 * hits_5 ran) / inject_Z (examples ran)) /\
      In (EvPrintWrite Model (top1_line acc)) (trace s') /\
      In (EvPrintWrite Model (top5_line top5)) (trace s') /\
      (exists l5, deref Top5Accuracies (heap s') = l5 ++ [top5]) /\
      (list_ref_eqb Top1Accuracies Top5Accuracies = false ->
       exists l1, deref Top1Accuracies (heap s') = l1 ++ [acc]) /\
      (examples ran = 1000 -> hits_1 ran = 800 -> hits_5 ran = 950 ->
       (acc == 80)%Q /\ (top5 == 95)%Q /\
       top1_line acc =
         "Val/Test Top-1 Accuracy of the model on the test images: 80.0000 %"%string /\
       top5_line top5 =
         "Val/Test Top-5 Accuracy of the model on the test images: 95.0000 %"%string).
Proof.
  cbv zeta. eexists. eexists.
  match goal with
  | |- ?L = ?R /\ _ => assert (Hrun : L = R) by (vm_compute; reflexivity)
  end.
  split; [exact Hrun|].
  exact (validate_reports_percentages no_mask model_call criterion
           criterion_text Qplus Qminus Qmult (fun q => q) Qmult Qpower
           (cfg false false false false 3) big_loader
           Top1Accuracies Top5Accuracies ValLossAvg (start None) Hrun).
Defined.

(** The scenario itself: 1000 examples, 800 and 950 correct. *)
Example validate_thousand :
  exists acc s',
    run_validate (cfg false false false false 3) big_loader (start None)
    = Ok (acc, s') /\
    (acc == 80)%Q /\
    trace s' =
      [EvRetMask Model 0; EvModelCall Model false;
       EvPrintWrite Model
         ("Validation/Test Step [1/1] Loss: 250.00000000" ++ newline)%string;
       EvPrintWrite Model
         "Val/Test Top-1 Accuracy of the model on the test images: 80.0000 %";
       EvPrintWrite Model
         "Val/Test Top-5 Accuracy of the model on the test images: 95.0000 %";
       EvWandbLog Model
         [("Epoch"%string, 1%Q); ("Val Accuracy Top-1"%string, acc);
          ("Val Accuracy Top-5"%string, 95%Q);
          ("Val Loss"%string, 250%Q)]].
Proof.
  eexists. eexists. split; [vm_compute; reflexivity|].
  split; vm_compute; reflexivity.
Qed.

Lemma validate_top1_le_top5_witness :
  exists acc s',
    run_validate (cfg false false false false 3) val_loader after_one_step
    = Ok (acc, s') /\
    exists (top5 m : Q) (n : Z) (pre : list (event Model)),
      trace s' =
        pre ++ [EvWandbLog Model
                  [("Epoch"%string, inject_Z n);
                   ("Val Accuracy Top-1"%string, acc);
                   ("Val Accuracy Top-5"%string, top5);
                   ("Val Loss"%string, m)]] /\
      (acc <= top5)%Q.
Proof.
  eexists. eexists.
  match goal with
  | |- ?L = ?R /\ _ => assert (Hrun : L = R) by (vm_compute; reflexivity)
  end.
  split; [exact Hrun|].
  exact (validate_top1_le_top5 no_mask model_call criterion criterion_text
           Qplus Qminus Qmult (fun q => q) Qmult Qpower (cfg false false false false 3)
           val_loader Top1Accuracies Top5Accuracies ValLossAvg
           after_one_step Hrun).
Defined.

(** A validation pass that reports a top-1 accuracy of 70 % and a top-5
    accuracy of 100 %: top-1 is below top-5. *)
Lemma top1_below_top5 :
  exists acc top5 s',
    run_validate (cfg false false false false 3) val_loader after_one_step
    = Ok (acc, s') /\
    top1_accuracies (heap s') = [acc] /\
    top5_accuracies (heap s') = [top5] /\
    (acc == 70)%Q /\ (top5 == 100)%Q /\
    ~ (acc >= top5)%Q.
Proof.
  eexists. eexists. eexists. split; [vm_compute; reflexivity|].
  split; [vm_compute; reflexivity|].
  split; [vm_compute; reflexivity|].
  split; [vm_compute; reflexivity|].
  split; [vm_compute; reflexivity|].
  vm_compute. intro H. apply H. reflexivity.
Qed.

(** ** Whole runs *)

Lemma history_lengths_witness :
  let a := cfg false false false false 3 in
  0 <= no_epochs a /\
  exists s',
    run_train_main a (start None) = Ok (tt, s') /\
    Z.of_nat (List.length (top1_accuracies (heap s'))) = no_epochs a + 1 /\
    Z.of_nat (List.length (top5_accuracies (heap s'))) = no_epochs a + 1 /\
    Z.of_nat (List.length (val_loss_avg (heap s'))) = no_epochs a /\
    Z.of_nat (List.length (train_loss_avg (heap s'))) = no_epochs a /\
    exists test_loss,
      validate_default (heap s') =
        validate_default (heap (start None)) ++ [test_loss].
Proof.
  cbv zeta.
  assert (Hn : 0 <= no_epochs (cfg false false false false 3))
    by (vm_compute; discriminate).
  split; [exact Hn|]. eexists.
  match goal with
  | |- ?L = ?R /\ _ => assert (Hrun : L = R) by (vm_compute; reflexivity)
  end.
  split; [exact Hrun|].
  exact (history_lengths no_mask model_call criterion criterion_text
           Qplus Qminus Qmult (fun q => q) Qmult Qpower backward_step lr_scheduler_step
           current_lr update_lr max_memory_reserved
           (cfg false false false false 3) train_loader val_loader
           val_loader (start None) Hn Hrun).
Defined.

(** The run of the scenario: accuracies 70, 65 and 75. *)
Example run_70_65_75 :
  exists bst s',
    run_main (cfg false false false false 3) (start None) = Ok (bst, s') /\
    Forall2 Qeq (top1_accuracies (heap s'))
      [70 # 1; 65 # 1; 75 # 1; 75 # 1] /\
    saves (trace s') = [1; 3] /\
    checkpoint s' = Some 3 /\
    best_epoch bst = 3 /\
    List.length (val_loss_avg (heap s')) = 3%nat /\
    List.length (validate_default (heap s')) = 1%nat.
Proof.
  eexists. eexists. split; [vm_compute; reflexivity|].
  split; [repeat constructor|].
  repeat split; vm_compute; reflexivity.
Qed.

(** A run of one epoch in which no validation example is classified
    correctly: the accuracy of the first epoch is 0, there is no earlier
    epoch, and no checkpoint is written. *)
Lemma zero_accuracy_never_saves :
  exists bst acc test_acc s',
    run_hopeless (cfg false false false false 1) (start None)
    = Ok (bst, s') /\
    top1_accuracies (heap s') = [acc; test_acc] /\
    (acc == 0)%Q /\
    saves (trace s') = [] /\
    checkpoint s' = None /\
    best_epoch bst = 0.
Proof.
  eexists. eexists. eexists. eexists. split; [vm_compute; reflexivity|].
  repeat split; vm_compute; reflexivity.
Qed.

Lemma checkpoint_selection_witness :
  let a := cfg false false false false 3 in
  let s := start None in
  0 <= no_epochs a /\
  exists bst s',
    run_main a s = Ok (bst, s') /\
    exists (accs : list Q) (test_acc : Q) (sn : st)
           (evs_test : list (event Model)),
      top1_accuracies (heap s') = accs ++ [test_acc] /\
      List.length accs = Z.to_nat (no_epochs a) /\
      run_epoch_loop a (py_range (no_epochs a)) (mkBest 0 0 0) (run_start s)
      = Ok (bst, sn) /\
      run_test a sn = Ok (test_acc, s') /\
      trace s' = trace sn ++ evs_test /\
      saves evs_test = [] /\
      checkpoint s' = checkpoint sn /\
      (forall (k : nat) (acc : Q),
         nth_error accs k = Some acc ->
         exists (b0 : best) (sk : st) (b1 : best) (s1 : st)
                (evs : list (event Model)),
           run_epoch_loop a (py_range (Z.of_nat k)) (mkBest 0 0 0)
             (run_start s) = Ok (b0, sk) /\
           run_one_epoch a (Z.of_nat k) b0 sk = Ok (b1, s1) /\
           trace s1 = trace sk ++ evs /\
           (exceeds_all acc (firstn k accs) /\
            saves evs = [model s1] /\
            checkpoint s1 = Some (model s1) /\
            top_acc b1 = acc /\ best_epoch b1 = Z.of_nat k + 1
            \/
            ~ exceeds_all acc (firstn k accs) /\
            saves evs = [] /\
            checkpoint s1 = checkpoint sk /\
            top_acc b1 = top_acc b0 /\ best_epoch b1 = best_epoch b0)) /\
      (Forall2 Qeq accs [70 # 1; 65 # 1; 75 # 1] ->
       best_epoch bst = 3 /\ (top_acc bst == 75 # 1)%Q /\
       exists evs,
         trace sn = trace s ++ evs /\ List.length (saves evs) = 2%nat).
Proof.
  cbv zeta.
  assert (Hn : 0 <= no_epochs (cfg false false false false 3))
    by (vm_compute; discriminate).
  split; [exact Hn|]. eexists. eexists.
  match goal with
  | |- ?L = ?R /\ _ => assert (Hrun : L = R) by (vm_compute; reflexivity)
  end.
  split; [exact Hrun|].
  exact (checkpoint_selection no_mask model_call criterion criterion_text
           Qplus Qminus Qmult (fun q => q) Qmult Qpower backward_step lr_scheduler_step
           current_lr update_lr max_memory_reserved
           (cfg false false false false 3) train_loader val_loader
           val_loader (start None) Hn Hrun).
Defined.

Lemma debug_epoch_mean_witness :
  let a := cfg false false false true 3 in
  let s := start None in
  debugging a = true /\
  0 < log_freq a /\
  five_loader <> [] /\
  (lr_scheduler s = None -> epoch_decay a <> 0) /\
  exists (ran : list (batch_locals Scalar)) (s1 : st),
    run_train_locals a 0 (Z.of_nat (List.length five_loader)) 0
      (firstn (Z.to_nat (log_freq a * 3)) five_loader)
      (set_training true s) = Ok (ran, s1) /\
    exists (s' : st) (m : Q),
      run_train_epoch no_mask a 0 five_loader s = Ok (tt, s') /\
      List.length ran =
        Nat.min (Z.to_nat (log_freq a * 3)) (List.length five_loader) /\
      mean (map (fun loc => l_loss loc) ran) = Ok m /\
      m = round_double
            (Qsum (map (fun loc => l_loss loc) ran)
             / inject_Z (Z.of_nat (List.length ran))) /\
      heap s' = push TrainLossAvg m (heap s) /\
      global_step s' = global_step s + Z.of_nat (List.length ran) /\
      model s' = model s1.
Proof.
  cbv zeta.
  assert (H1 : debugging (cfg false false false true 3) = true)
    by reflexivity.
  assert (H2 : 0 < log_freq (cfg false false false true 3))
    by reflexivity.
  assert (H3 : five_loader <> []) by discriminate.
  assert (H4 : lr_scheduler (start None) = None ->
               epoch_decay (cfg false false false true 3) <> 0)
    by (intros _; discriminate).
  split; [exact H1|]. split; [exact H2|]. split; [exact H3|].
  split; [exact H4|]. eexists. eexists.
  match goal with
  | |- ?L = ?R /\ _ => assert (Hrun : L = R) by (vm_compute; reflexivity)
  end.
  split; [exact Hrun|].
  exact (debug_epoch_mean no_mask model_call criterion criterion_text
           Qplus Qminus Qmult (fun q => q) Qmult Qpower backward_step
           lr_scheduler_step current_lr update_lr
           (cfg false false false true 3) 0
           TrainLossAvg (start None) H1 H2 H3 H4 Hrun).
Defined.

(** Five batches, [log_freq = 1]: three of them run. *)
Example debug_runs_three :
  exists s' m,
    run_train_epoch no_mask (cfg false false false true 3) 0 five_loader
      (start None) = Ok (tt, s') /\
    global_step s' = 3 /\
    model s' = 3 /\
    train_loss_avg (heap s') = [m] /\ (m == 5)%Q.
Proof.
  eexists. eexists. split; [vm_compute; reflexivity|].
  repeat split.
Qed.

(** ** Inference *)


Example prompt_constant :
  prepare (infer_cfg "constant" 4) 7
  = Ok ("img.png"%string, Some [[101; 1; 1; 102]], 7).
Proof. vm_compute. reflexivity. Qed.

(** Four draws of the generator, reduced modulo 30521. *)
Example prompt_random :
  prepare (infer_cfg "random" 4) 7
  = Ok ("img.png"%string, Some [[101; 16157; 27882; 102]], 1486001571) /\
  map (fun r => r mod 30521) (draws next_raw 7 4)
  = [11427; 16157; 27882; 25644].
Proof. split; vm_compute; reflexivity. Qed.

End Demo.
